(** * converser: a provider-neutral conversational data model

    Shallow embedding of the package [converser]
    (modules [canisters], [messages], [events], [invocables]) and
    the properties its specification states about it.

    Python objects are embedded as follows.
    - A dataclass is a record; its generated keyword-only [__init__] is a
      function [init] from optional keyword arguments to an outcome, which
      is a [TypeError] exactly when a field without default is omitted.
    - A classmethod that reads the clock lives in the monad [Py], which
      threads the state of the world (the system clock) and a possible fault.
    - [Absential[T]] is the three-state option of the package [absence]. *)

From Stdlib Require Import ZArith Lia.
From stdpp Require Import base option list strings gmap.

Local Open Scope string_scope.
Local Open Scope list_scope.
Local Open Scope Z_scope.

(** ** Faults and outcomes *)

Inductive Fault : Type :=
  | TypeError (missing : list string)
  | UnhashableType
  | AttributeImmutability (attribute : string)
  | AttributeError (attribute : string)
  | NotImplementedError
  | EnsembleConflict (name : string).

Inductive Raises (A : Type) : Type :=
  | Returns (a : A)
  | Raised (e : Fault).
Arguments Returns {A} a.
Arguments Raised {A} e.

Definition is_raised {A} (r : Raises A) : bool :=
  match r with Returns _ => false | Raised _ => true end.

(** ** The world: a system clock

    [clock] is the current reading of the system clock, in microseconds
    since the epoch, UTC.  Between two readings the clock moves by the
    next step of [elapses]; it is the realtime clock, which can be set
    back, so a step may be negative. *)

Record World : Type := { clock : Z; elapses : list Z }.

Definition Py (A : Type) : Type := World -> Raises A * World.

Definition pure {A} (a : A) : Py A := fun w => (Returns a, w).

Definition bind {A B} (c : Py A) (k : A -> Py B) : Py B :=
  fun w => match c w with
           | (Returns a, w') => k a w'
           | (Raised e, w') => (Raised e, w')
           end.

Definition call {A} (r : Raises A) : Py A := fun w => (r, w).

Notation "'let*' x ':=' c 'in' k" := (bind c (fun x => k))
  (at level 10, x name, c at level 100, k at level 200).

Definition tick (w : World) : World :=
  match elapses w with
  | [] => w
  | d :: ds => {| clock := clock w + d; elapses := ds |}
  end.

(** ** Absence marker: [__.absent], [__.is_absent], [__.Absential] *)

Inductive Absential (A : Type) : Type :=
  | absent
  | present (a : A).
Arguments absent {A}.
Arguments present {A} a.

Definition is_absent {A} (x : Absential A) : bool :=
  match x with absent => true | present _ => false end.

(** ** Built-in containers and values *)

(** [typx.Any], restricted to the values a tool argument can hold:
    [None], integers (a Python [bool] is the integer 0 or 1), strings and
    lists of those. *)
#[local] Set Warnings "-register-all".

Inductive Any : Type :=
  | PyNone
  | PyInt (z : Z)
  | PyStr (s : string)
  | PySeq (l : list Any).

(** [tuple[ T, ... ]]: a fixed sequence. *)
Record tuple (A : Type) : Type := Tuple { items : list A }.
Arguments Tuple {A} items.
Arguments items {A} t.

(** [cabc.Sequence[ T ]]: what a caller may pass, a list or a tuple. *)
Inductive Sequence (A : Type) : Type :=
  | PyList (l : list A)
  | PyTuple (t : tuple A).
Arguments PyList {A} l.
Arguments PyTuple {A} t.

Definition iter {A} (s : Sequence A) : list A :=
  match s with PyList l => l | PyTuple t => items t end.

(** [tuple( s )] *)
Definition tuple_of {A} (s : Sequence A) : tuple A := Tuple (iter s).

(** [cabc.Mapping[ str, V ]] is [gmap string V];
    [immut.Dictionary[ str, V ]] is the immutable dictionary built from it. *)
Record Dictionary (V : Type) : Type := Frozen { entries : gmap string V }.
Arguments Frozen {V} entries.
Arguments entries {V} d.

(** [immut.Dictionary( m )] *)
Definition Dictionary_of {V} (m : gmap string V) : Dictionary V := Frozen m.

(** ** [datetime]

    [wall] is the wall-clock reading in microseconds, [tzinfo] the zone it
    is read in ([None] for a naive datetime). *)

Record timezone : Type := { utcoffset : Z }.

Definition utc : timezone := {| utcoffset := 0 |}.

Record datetime : Type := { wall : Z; tzinfo : option timezone }.

(** The instant an aware datetime denotes, in microseconds UTC. *)
Definition utc_instant (d : datetime) : option Z :=
  match tzinfo d with
  | Some tz => Some (wall d - utcoffset tz)
  | None => None
  end.

(** [datetime.datetime.now( tz )]: reads the clock; time then passes. *)
Definition datetime_now (tz : timezone) : Py datetime :=
  fun w => (Returns {| wall := clock w + utcoffset tz; tzinfo := Some tz |},
            tick w).

(** Names of the keyword arguments a call omitted. *)
Definition omitted {A} (name : string) (arg : option A) : list string :=
  match arg with Some _ => [] | None => [name] end.

(** * canisters.py *)

Inductive Role : Type :=
  | User | Assistant | Supervisor | Document | Invocation | Result.

Definition Role_value (r : Role) : string :=
  match r with
  | User => "user"
  | Assistant => "assistant"
  | Supervisor => "supervisor"
  | Document => "document"
  | Invocation => "invocation"
  | Result => "result"
  end.

Module TextContent.
Record t : Type := { text : string; mime_type : string }.

(** [TextContent( text = ..., mime_type = 'text/plain' )] *)
Definition init (text : option string) (mime_type : option string)
  : Raises t :=
  match text with
  | Some text =>
      Returns {| text := text;
                 mime_type := default "text/plain" mime_type |}
  | None => Raised (TypeError (omitted "text" text))
  end.
End TextContent.

Module PictureContent.
Record t : Type :=
  { content_id : string;
    mime_type : string;
    source_location : Absential string }.

(** [PictureContent( content_id = ..., mime_type = ...,
    source_location = absent )] *)
Definition init (content_id : option string) (mime_type : option string)
    (source_location : option (Absential string)) : Raises t :=
  match content_id, mime_type with
  | Some content_id, Some mime_type =>
      Returns {| content_id := content_id;
                 mime_type := mime_type;
                 source_location := default absent source_location |}
  | _, _ =>
      Raised (TypeError (omitted "mime_type" mime_type
                         ++ omitted "content_id" content_id))
  end.
End PictureContent.

(** The protocol [Content]: anything with a [mime_type]. *)
Inductive Content : Type :=
  | Text (c : TextContent.t)
  | Picture (c : PictureContent.t).

Definition Content_mime_type (c : Content) : string :=
  match c with
  | Text c => TextContent.mime_type c
  | Picture c => PictureContent.mime_type c
  end.

(** * messages.py *)

Module UserMessage.
Record t : Type :=
  { role : Role; timestamp : datetime; content : tuple Content }.

Definition init (role : option Role) (timestamp : option datetime)
    (content : option (tuple Content)) : Raises t :=
  match role, timestamp, content with
  | Some role, Some timestamp, Some content =>
      Returns {| role := role; timestamp := timestamp; content := content |}
  | _, _, _ =>
      Raised (TypeError (omitted "role" role
                         ++ omitted "timestamp" timestamp
                         ++ omitted "content" content))
  end.

Definition produce (content : Sequence Content)
    (timestamp : Absential datetime) : Py t :=
  let* timestamp :=
    match timestamp with
    | absent => datetime_now utc
    | present timestamp => pure timestamp
    end in
  call (init (Some User) (Some timestamp) (Some (tuple_of content))).
End UserMessage.

Module AssistantMessage.
Record t : Type :=
  { role : Role;
    timestamp : datetime;
    content : Absential (tuple Content) }.

Definition init (role : option Role) (timestamp : option datetime)
    (content : option (Absential (tuple Content))) : Raises t :=
  match role, timestamp, content with
  | Some role, Some timestamp, Some content =>
      Returns {| role := role; timestamp := timestamp; content := content |}
  | _, _, _ =>
      Raised (TypeError (omitted "role" role
                         ++ omitted "timestamp" timestamp
                         ++ omitted "content" content))
  end.

Definition produce (content : Absential (Sequence Content))
    (timestamp : Absential datetime) : Py t :=
  let* timestamp :=
    match timestamp with
    | absent => datetime_now utc
    | present timestamp => pure timestamp
    end in
  let content_tuple :=
    match content with
    | present content => present (tuple_of content)
    | absent => absent
    end in
  call (init (Some Assistant) (Some timestamp) (Some content_tuple)).
End AssistantMessage.

Module SupervisorMessage.
Record t : Type :=
  { role : Role;
    timestamp : datetime;
    content : tuple Content;
    cache_control : Absential (Dictionary Any) }.

Definition init (role : option Role) (timestamp : option datetime)
    (content : option (tuple Content))
    (cache_control : option (Absential (Dictionary Any))) : Raises t :=
  match role, timestamp, content, cache_control with
  | Some role, Some timestamp, Some content, Some cache_control =>
      Returns {| role := role; timestamp := timestamp; content := content;
                 cache_control := cache_control |}
  | _, _, _, _ =>
      Raised (TypeError (omitted "role" role
                         ++ omitted "timestamp" timestamp
                         ++ omitted "content" content
                         ++ omitted "cache_control" cache_control))
  end.

Definition produce (content : Sequence Content)
    (cache_control : Absential (gmap string Any))
    (timestamp : Absential datetime) : Py t :=
  let* timestamp :=
    match timestamp with
    | absent => datetime_now utc
    | present timestamp => pure timestamp
    end in
  let cache_dict :=
    match cache_control with
    | present cache_control => present (Dictionary_of cache_control)
    | absent => absent
    end in
  call (init (Some Supervisor) (Some timestamp) (Some (tuple_of content))
             (Some cache_dict)).
End SupervisorMessage.

Module DocumentMessage.
Record t : Type :=
  { role : Role;
    timestamp : datetime;
    content : tuple Content;
    document_id : string }.

Definition init (role : option Role) (timestamp : option datetime)
    (content : option (tuple Content)) (document_id : option string)
  : Raises t :=
  match role, timestamp, content, document_id with
  | Some role, Some timestamp, Some content, Some document_id =>
      Returns {| role := role; timestamp := timestamp; content := content;
                 document_id := document_id |}
  | _, _, _, _ =>
      Raised (TypeError (omitted "role" role
                         ++ omitted "timestamp" timestamp
                         ++ omitted "content" content
                         ++ omitted "document_id" document_id))
  end.

Definition produce (document_id : string) (content : Sequence Content)
    (timestamp : Absential datetime) : Py t :=
  let* timestamp :=
    match timestamp with
    | absent => datetime_now utc
    | present timestamp => pure timestamp
    end in
  call (init (Some Document) (Some timestamp) (Some (tuple_of content))
             (Some document_id)).
End DocumentMessage.

Module InvocationMessage.
Record t : Type :=
  { role : Role;
    timestamp : datetime;
    invocation_id : string;
    name : string;
    arguments : Dictionary Any }.

Definition init (role : option Role) (timestamp : option datetime)
    (invocation_id : option string) (name : option string)
    (arguments : option (Dictionary Any)) : Raises t :=
  match role, timestamp, invocation_id, name, arguments with
  | Some role, Some timestamp, Some invocation_id, Some name,
    Some arguments =>
      Returns {| role := role; timestamp := timestamp;
                 invocation_id := invocation_id; name := name;
                 arguments := arguments |}
  | _, _, _, _, _ =>
      Raised (TypeError (omitted "role" role
                         ++ omitted "timestamp" timestamp
                         ++ omitted "invocation_id" invocation_id
                         ++ omitted "name" name
                         ++ omitted "arguments" arguments))
  end.

Definition produce (invocation_id : string) (name : string)
    (arguments : gmap string Any) (timestamp : Absential datetime)
  : Py t :=
  let* timestamp :=
    match timestamp with
    | absent => datetime_now utc
    | present timestamp => pure timestamp
    end in
  call (init (Some Invocation) (Some timestamp) (Some invocation_id)
             (Some name) (Some (Dictionary_of arguments))).
End InvocationMessage.

Module ResultMessage.
Record t : Type :=
  { role : Role;
    timestamp : datetime;
    invocation_id : string;
    content : tuple Content;
    error : Absential string }.

Definition init (role : option Role) (timestamp : option datetime)
    (invocation_id : option string) (content : option (tuple Content))
    (error : option (Absential string)) : Raises t :=
  match role, timestamp, invocation_id, content, error with
  | Some role, Some timestamp, Some invocation_id, Some content,
    Some error =>
      Returns {| role := role; timestamp := timestamp;
                 invocation_id := invocation_id; content := content;
                 error := error |}
  | _, _, _, _, _ =>
      Raised (TypeError (omitted "role" role
                         ++ omitted "timestamp" timestamp
                         ++ omitted "invocation_id" invocation_id
                         ++ omitted "content" content
                         ++ omitted "error" error))
  end.

Definition produce (invocation_id : string) (content : Sequence Content)
    (error : Absential string) (timestamp : Absential datetime) : Py t :=
  let* timestamp :=
    match timestamp with
    | absent => datetime_now utc
    | present timestamp => pure timestamp
    end in
  call (init (Some Result) (Some timestamp) (Some invocation_id)
             (Some (tuple_of content)) (Some error)).
End ResultMessage.

(** Any concrete message. *)
Inductive Message : Type :=
  | OfUser (m : UserMessage.t)
  | OfAssistant (m : AssistantMessage.t)
  | OfSupervisor (m : SupervisorMessage.t)
  | OfDocument (m : DocumentMessage.t)
  | OfInvocation (m : InvocationMessage.t)
  | OfResult (m : ResultMessage.t).

Definition Message_role (m : Message) : Role :=
  match m with
  | OfUser m => UserMessage.role m
  | OfAssistant m => AssistantMessage.role m
  | OfSupervisor m => SupervisorMessage.role m
  | OfDocument m => DocumentMessage.role m
  | OfInvocation m => InvocationMessage.role m
  | OfResult m => ResultMessage.role m
  end.

Definition Message_timestamp (m : Message) : datetime :=
  match m with
  | OfUser m => UserMessage.timestamp m
  | OfAssistant m => AssistantMessage.timestamp m
  | OfSupervisor m => SupervisorMessage.timestamp m
  | OfDocument m => DocumentMessage.timestamp m
  | OfInvocation m => InvocationMessage.timestamp m
  | OfResult m => ResultMessage.timestamp m
  end.

(** * events.py *)

Module MessageAllocationEvent.
Record t : Type := { message_id : string }.
End MessageAllocationEvent.

Module MessageProgressEvent.
Record t : Type := { message_id : string; chunk : string }.
End MessageProgressEvent.

Module MessageUpdateEvent.
Record t : Type := { message_id : string }.
End MessageUpdateEvent.

Module MessageCompletionEvent.
Record t : Type := { message_id : string }.
End MessageCompletionEvent.

Module MessageAbortEvent.
Record t : Type := { message_id : string; error : string }.
End MessageAbortEvent.

Inductive ConversationEvent : Type :=
  | Allocation (e : MessageAllocationEvent.t)
  | Progress (e : MessageProgressEvent.t)
  | Update (e : MessageUpdateEvent.t)
  | Completion (e : MessageCompletionEvent.t)
  | Abort (e : MessageAbortEvent.t).

(** The attribute [message_id] of the base class [Event]. *)
Definition Event_message_id (e : ConversationEvent) : string :=
  match e with
  | Allocation e => MessageAllocationEvent.message_id e
  | Progress e => MessageProgressEvent.message_id e
  | Update e => MessageUpdateEvent.message_id e
  | Completion e => MessageCompletionEvent.message_id e
  | Abort e => MessageAbortEvent.message_id e
  end.

(** ** The streaming protocol

    The package declares the events and no producer of them.  *)

Module Stream.

Inductive State : Type :=
  | Unstarted | Allocated | Streaming | Completed | Aborted.

(** Modelled from the spec: the producer of events is missing; this is
    the state machine of one [message_id]: [Allocation] moves Unstarted
    to Allocated, any number of [Progress] and [Update] events occur
    while streaming, exactly one of [Completion] or [Abort] ends the
    sequence, and the terminal states accept nothing. *)
Definition transition (s : State) (e : ConversationEvent) : option State :=
  match s, e with
  | Unstarted, Allocation _ => Some Allocated
  | (Allocated | Streaming), (Progress _ | Update _) => Some Streaming
  | (Allocated | Streaming), Completion _ => Some Completed
  | (Allocated | Streaming), Abort _ => Some Aborted
  | _, _ => None
  end.

(** Modelled from the spec: the producer is missing; events of different
    messages are unordered relative to each other, so a stream is legal
    when every event is a legal transition of its own message. *)
Definition emit (states : gmap string State) (e : ConversationEvent)
  : option (gmap string State) :=
  match transition (default Unstarted (states !! Event_message_id e)) e with
  | Some s => Some (<[Event_message_id e := s]> states)
  | None => None
  end.

Fixpoint run (states : gmap string State) (es : list ConversationEvent)
  : option (gmap string State) :=
  match es with
  | [] => Some states
  | e :: es =>
      match emit states e with
      | Some states => run states es
      | None => None
      end
  end.

Definition state_of (states : gmap string State) (message_id : string)
  : State := default Unstarted (states !! message_id).

(** The events of one message, in emission order. *)
Definition events_of (message_id : string) (es : list ConversationEvent)
  : list ConversationEvent :=
  List.filter (fun e => bool_decide (Event_message_id e = message_id)) es.

Definition is_allocation (e : ConversationEvent) : bool :=
  match e with Allocation _ => true | _ => false end.

Definition is_completion (e : ConversationEvent) : bool :=
  match e with Completion _ => true | _ => false end.

Definition is_abort (e : ConversationEvent) : bool :=
  match e with Abort _ => true | _ => false end.

Definition is_terminal (e : ConversationEvent) : bool :=
  is_completion e || is_abort e.

Definition is_streaming (e : ConversationEvent) : bool :=
  match e with Progress _ | Update _ => true | _ => false end.

Definition count (p : ConversationEvent -> bool)
    (es : list ConversationEvent) : nat :=
  length (List.filter p es).

Definition finished (s : State) : bool :=
  match s with Completed | Aborted => true | _ => false end.

(** What the events of a message look like in each state. *)
Definition shape (s : State) (p : list ConversationEvent) : Prop :=
  match s with
  | Unstarted => p = []
  | Allocated => ∃ a, p = [Allocation a]
  | Streaming =>
      ∃ a mid, p = Allocation a :: mid
               ∧ mid ≠ [] ∧ forallb is_streaming mid = true
  | Completed =>
      ∃ a mid c, p = Allocation a :: mid ++ [Completion c]
                 ∧ forallb is_streaming mid = true
  | Aborted =>
      ∃ a mid x, p = Allocation a :: mid ++ [Abort x]
                 ∧ forallb is_streaming mid = true
  end.

(** Modelled from the spec: the producer of events is missing; this is
    what happens, step by step, while it generates one message after the
    allocation: a chunk arrives, the content is recomputed, or generation
    fails with a description of the failure. *)
Inductive Step : Type :=
  | Chunk (chunk : string)
  | Recomputed
  | Failed (error : string).

Definition is_failure (s : Step) : bool :=
  match s with Failed _ => true | _ => false end.

(** Modelled from the spec: the events the missing producer emits after
    the allocation: a [Progress] for each chunk and an [Update] for each
    recomputation; a failure is reported as one [Abort] carrying its
    description and ends the sequence; a generation that does not fail
    ends with a [Completion]. *)
Fixpoint continue (message_id : string) (steps : list Step)
  : list ConversationEvent :=
  match steps with
  | [] =>
      [Completion {| MessageCompletionEvent.message_id := message_id |}]
  | Chunk chunk :: steps =>
      Progress {| MessageProgressEvent.message_id := message_id;
                  MessageProgressEvent.chunk := chunk |}
      :: continue message_id steps
  | Recomputed :: steps =>
      Update {| MessageUpdateEvent.message_id := message_id |}
      :: continue message_id steps
  | Failed error :: _ =>
      [Abort {| MessageAbortEvent.message_id := message_id;
                MessageAbortEvent.error := error |}]
  end.

(** Modelled from the spec: every event the missing producer emits for
    one message, the allocation first. *)
Definition generate (message_id : string) (steps : list Step)
  : list ConversationEvent :=
  Allocation {| MessageAllocationEvent.message_id := message_id |}
  :: continue message_id steps.

End Stream.

(** * invocables.py *)

(** [Invocable]: a callable of a context and arguments. *)
Definition Invocable : Type :=
  gmap string Any -> Dictionary Any -> Raises Any.

Module Invoker.
(** [ensemble] refers to the owning ensemble by its name. *)
Record t : Type :=
  { name : string;
    invocable : Invocable;
    arguments_schema : Dictionary Any;
    ensemble : string }.
End Invoker.

Module Ensemble.
Record t : Type :=
  { name : string;
    invokers : Dictionary Invoker.t;
    configuration : Dictionary Any;
    connection : Absential Any }.
End Ensemble.

(** The protocol [InvokerRegistry]: its four abstract methods, over the
    state [R] of an implementation. *)
Class InvokerRegistry (R : Type) : Type :=
  { register_ensemble : R -> Ensemble.t -> Raises R;
    access_invoker : R -> string -> Raises (Absential Invoker.t);
    survey_ensembles : R -> Raises (list Ensemble.t);
    survey_invokers : R -> Raises (list Invoker.t) }.

(** The bodies the protocol itself gives its abstract methods; an
    implementation overrides them, and they run only through [super()]. *)
Definition abstract_InvokerRegistry : InvokerRegistry unit :=
  {| register_ensemble _ _ := Raised NotImplementedError;
     access_invoker _ _ := Raised NotImplementedError;
     survey_ensembles _ := Raised NotImplementedError;
     survey_invokers _ := Raised NotImplementedError |}.

Module Registry.

(** Modelled from the spec: an implementation of [InvokerRegistry] is
    missing (the package declares the protocol only).  A registry owns
    its ensembles in registration order, each registered once by name. *)
Record t : Type := { ensembles : list Ensemble.t }.

Definition empty : t := {| ensembles := [] |}.

(** Modelled from the spec: the flattened by-name lookup across all
    registered ensembles of the missing implementation. *)
Fixpoint lookup_invoker (es : list Ensemble.t) (name : string)
  : Absential Invoker.t :=
  match es with
  | [] => absent
  | e :: es =>
      match entries (Ensemble.invokers e) !! name with
      | Some i => present i
      | None => lookup_invoker es name
      end
  end.

(** Modelled from the spec: registration of the missing implementation;
    an ensemble whose name is taken is rejected. *)
Definition register (r : t) (e : Ensemble.t) : Raises t :=
  if bool_decide (Ensemble.name e ∈ Ensemble.name <$> ensembles r)
  then Raised (EnsembleConflict (Ensemble.name e))
  else Returns {| ensembles := ensembles r ++ [e] |}.

(** Modelled from the spec: the surveys of the missing implementation,
    snapshots in registration order. *)
Definition invokers_of (r : t) : list Invoker.t :=
  e ← ensembles r; snd <$> map_to_list (entries (Ensemble.invokers e)).

#[global] Instance registry : InvokerRegistry t :=
  { register_ensemble := register;
    access_invoker r name := Returns (lookup_invoker (ensembles r) name);
    survey_ensembles r := Returns (ensembles r);
    survey_invokers r := Returns (invokers_of r) }.

(** A name is registered when some registered ensemble has an invoker
    of that name. *)
Definition registered (r : t) (name : string) : bool :=
  existsb (fun e => bool_decide
                      (is_Some (entries (Ensemble.invokers e) !! name)))
          (ensembles r).

End Registry.

(** * Instances as Python objects

    The classes of the package derive from [__.immut.DataclassObject] and
    [__.immut.DataclassProtocol]; the subpackage [__] that binds [immut] is
    not part of the sources at hand.  An object has an identity, a class
    and attribute slots. *)

Module Class.

(** Every class statement of [canisters], [messages] and [events]. *)
Inductive t : Type :=
  | Content | TextContent | PictureContent
  | Canister | UserCanister | AssistantCanister | SupervisorCanister
  | DocumentCanister | InvocationCanister | ResultCanister
  | Message | UserMessage | AssistantMessage | SupervisorMessage
  | DocumentMessage | InvocationMessage | ResultMessage
  | Event | MessageAllocationEvent | MessageProgressEvent
  | MessageUpdateEvent | MessageCompletionEvent | MessageAbortEvent.

#[global] Instance eq_dec : EqDecision t.
Proof. solve_decision. Defined.

Inductive Base : Type :=
  | immut_DataclassObject
  | immut_DataclassProtocol
  | typx_Protocol
  | Extends (c : t).

(** The bases each class statement lists. *)
Definition bases (c : t) : list Base :=
  match c with
  | Content | Canister => [immut_DataclassProtocol; typx_Protocol]
  | TextContent | PictureContent => [Extends Content]
  | UserCanister | AssistantCanister | SupervisorCanister
  | DocumentCanister | InvocationCanister | ResultCanister =>
      [Extends Canister]
  | Message | Event => [immut_DataclassObject]
  | UserMessage | AssistantMessage | SupervisorMessage
  | DocumentMessage | InvocationMessage | ResultMessage =>
      [Extends Message]
  | MessageAllocationEvent | MessageProgressEvent | MessageUpdateEvent
  | MessageCompletionEvent | MessageAbortEvent => [Extends Event]
  end.

(** Whether an [immut] dataclass base is among the ancestors, looking
    [depth] class statements up. *)
Fixpoint inherits_immut (depth : nat) (c : t) : bool :=
  match depth with
  | O => false
  | S depth =>
      existsb (fun b => match b with
                        | immut_DataclassObject
                        | immut_DataclassProtocol => true
                        | typx_Protocol => false
                        | Extends c' => inherits_immut depth c'
                        end) (bases c)
  end.

Definition immutable (c : t) : bool := inherits_immut 23 c.

(** The dataclass fields, inherited ones first. *)
Definition field_names (c : t) : list string :=
  match c with
  | Content => ["mime_type"]
  | TextContent => ["mime_type"; "text"]
  | PictureContent => ["mime_type"; "content_id"; "source_location"]
  | Canister | Message => ["role"; "timestamp"]
  | UserCanister | UserMessage => ["role"; "timestamp"; "content"]
  | AssistantCanister | AssistantMessage =>
      ["role"; "timestamp"; "content"]
  | SupervisorCanister | SupervisorMessage =>
      ["role"; "timestamp"; "content"; "cache_control"]
  | DocumentCanister | DocumentMessage =>
      ["role"; "timestamp"; "content"; "document_id"]
  | InvocationCanister | InvocationMessage =>
      ["role"; "timestamp"; "invocation_id"; "name"; "arguments"]
  | ResultCanister | ResultMessage =>
      ["role"; "timestamp"; "invocation_id"; "content"; "error"]
  | Event | MessageAllocationEvent | MessageUpdateEvent
  | MessageCompletionEvent => ["message_id"]
  | MessageProgressEvent => ["message_id"; "chunk"]
  | MessageAbortEvent => ["message_id"; "error"]
  end.

End Class.

(** What an attribute of an instance can hold. *)
Inductive Value : Type :=
  | VRole (r : Role)
  | VDatetime (d : datetime)
  | VStr (s : string)
  | VContents (t : tuple Content)
  | VDictionary (d : Dictionary Any)
  | VAbsent.

Definition of_absential {A} (f : A -> Value) (x : Absential A) : Value :=
  match x with absent => VAbsent | present a => f a end.

(** An instance of one of the concrete classes. *)
Inductive Instance : Type :=
  | AMessage (m : Message)
  | AContent (c : Content)
  | AnEvent (e : ConversationEvent).

Definition class_of (x : Instance) : Class.t :=
  match x with
  | AMessage (OfUser _) => Class.UserMessage
  | AMessage (OfAssistant _) => Class.AssistantMessage
  | AMessage (OfSupervisor _) => Class.SupervisorMessage
  | AMessage (OfDocument _) => Class.DocumentMessage
  | AMessage (OfInvocation _) => Class.InvocationMessage
  | AMessage (OfResult _) => Class.ResultMessage
  | AContent (Text _) => Class.TextContent
  | AContent (Picture _) => Class.PictureContent
  | AnEvent (Allocation _) => Class.MessageAllocationEvent
  | AnEvent (Progress _) => Class.MessageProgressEvent
  | AnEvent (Update _) => Class.MessageUpdateEvent
  | AnEvent (Completion _) => Class.MessageCompletionEvent
  | AnEvent (Abort _) => Class.MessageAbortEvent
  end.

Definition Content_attributes (c : Content) : list (string * Value) :=
  match c with
  | Text c =>
      [("mime_type", VStr (TextContent.mime_type c));
       ("text", VStr (TextContent.text c))]
  | Picture c =>
      [("mime_type", VStr (PictureContent.mime_type c));
       ("content_id", VStr (PictureContent.content_id c));
       ("source_location",
        of_absential VStr (PictureContent.source_location c))]
  end.

Definition Message_attributes (m : Message) : list (string * Value) :=
  match m with
  | OfUser m =>
      [("role", VRole (UserMessage.role m));
       ("timestamp", VDatetime (UserMessage.timestamp m));
       ("content", VContents (UserMessage.content m))]
  | OfAssistant m =>
      [("role", VRole (AssistantMessage.role m));
       ("timestamp", VDatetime (AssistantMessage.timestamp m));
       ("content", of_absential VContents (AssistantMessage.content m))]
  | OfSupervisor m =>
      [("role", VRole (SupervisorMessage.role m));
       ("timestamp", VDatetime (SupervisorMessage.timestamp m));
       ("content", VContents (SupervisorMessage.content m));
       ("cache_control",
        of_absential VDictionary (SupervisorMessage.cache_control m))]
  | OfDocument m =>
      [("role", VRole (DocumentMessage.role m));
       ("timestamp", VDatetime (DocumentMessage.timestamp m));
       ("content", VContents (DocumentMessage.content m));
       ("document_id", VStr (DocumentMessage.document_id m))]
  | OfInvocation m =>
      [("role", VRole (InvocationMessage.role m));
       ("timestamp", VDatetime (InvocationMessage.timestamp m));
       ("invocation_id", VStr (InvocationMessage.invocation_id m));
       ("name", VStr (InvocationMessage.name m));
       ("arguments", VDictionary (InvocationMessage.arguments m))]
  | OfResult m =>
      [("role", VRole (ResultMessage.role m));
       ("timestamp", VDatetime (ResultMessage.timestamp m));
       ("invocation_id", VStr (ResultMessage.invocation_id m));
       ("content", VContents (ResultMessage.content m));
       ("error", of_absential VStr (ResultMessage.error m))]
  end.

Definition Event_attributes (e : ConversationEvent) : list (string * Value) :=
  match e with
  | Allocation e =>
      [("message_id", VStr (MessageAllocationEvent.message_id e))]
  | Progress e =>
      [("message_id", VStr (MessageProgressEvent.message_id e));
       ("chunk", VStr (MessageProgressEvent.chunk e))]
  | Update e => [("message_id", VStr (MessageUpdateEvent.message_id e))]
  | Completion e =>
      [("message_id", VStr (MessageCompletionEvent.message_id e))]
  | Abort e =>
      [("message_id", VStr (MessageAbortEvent.message_id e));
       ("error", VStr (MessageAbortEvent.error e))]
  end.

Definition attributes (x : Instance) : list (string * Value) :=
  match x with
  | AMessage m => Message_attributes m
  | AContent c => Content_attributes c
  | AnEvent e => Event_attributes e
  end.

Record Object : Type :=
  { ident : positive; cls : Class.t; slots : gmap string Value }.

(** The object a construction yields at the address [ident]. *)
Definition reify (ident : positive) (x : Instance) : Object :=
  {| ident := ident; cls := class_of x;
     slots := list_to_map (attributes x) |}.

Definition getattr (o : Object) (name : string) : Raises Value :=
  match slots o !! name with
  | Some v => Returns v
  | None => Raised (AttributeError name)
  end.

(** Modelled from the spec: [__setattr__] of the [immut] dataclass bases,
    whose binding in the subpackage [__] is missing: assignment to an
    attribute of an instance of an immutable class fails and rebinds
    nothing; other objects take the assignment. *)
Definition setattr (o : Object) (name : string) (v : Value)
  : Raises unit * Object :=
  if Class.immutable (cls o)
  then (Raised (AttributeImmutability name), o)
  else (Returns tt,
        {| ident := ident o; cls := cls o; slots := <[name := v]> (slots o) |}).

(** Modelled from the spec: [__delattr__] of the [immut] dataclass bases,
    whose binding in the subpackage [__] is missing: deletion fails
    likewise. *)
Definition delattr (o : Object) (name : string) : Raises unit * Object :=
  if Class.immutable (cls o)
  then (Raised (AttributeImmutability name), o)
  else match slots o !! name with
       | Some _ =>
           (Returns tt,
            {| ident := ident o; cls := cls o;
               slots := delete name (slots o) |})
       | None => (Raised (AttributeError name), o)
       end.

(** ** Equality and hashing of dataclass instances *)

#[global] Instance Role_eq_dec : EqDecision Role.
Proof. solve_decision. Defined.

(** [datetime.__eq__]: aware datetimes compare by the instant they
    denote, naive ones by their wall clock, and a naive one never equals
    an aware one. *)
Definition datetime_eq (a b : datetime) : bool :=
  match utc_instant a, utc_instant b with
  | Some x, Some y => Z.eqb x y
  | None, None => Z.eqb (wall a) (wall b)
  | _, _ => false
  end.

(** [tuple.__eq__] and [list.__eq__]: same length, equal element-wise. *)
Fixpoint list_eq {A} (eq : A -> A -> bool) (l k : list A) : bool :=
  match l, k with
  | [], [] => true
  | a :: l, b :: k => eq a b && list_eq eq l k
  | _, _ => false
  end.

Fixpoint Any_eq (a b : Any) : bool :=
  match a, b with
  | PyNone, PyNone => true
  | PyInt x, PyInt y => Z.eqb x y
  | PyStr x, PyStr y => String.eqb x y
  | PySeq l, PySeq k =>
      (fix go (l k : list Any) : bool :=
         match l, k with
         | [], [] => true
         | a :: l, b :: k => Any_eq a b && go l k
         | _, _ => false
         end) l k
  | _, _ => false
  end.

(** [Mapping.__eq__]: as many entries, and every entry of the one is an
    entry of the other. *)
Definition Mapping_eq (a b : gmap string Any) : bool :=
  Nat.eqb (size a) (size b)
  && forallb (fun kv => match b !! kv.1 with
                        | Some v => Any_eq kv.2 v
                        | None => false
                        end) (map_to_list a).

Definition Absential_eq {A} (eq : A -> A -> bool) (x y : Absential A)
  : bool :=
  match x, y with
  | absent, absent => true
  | present a, present b => eq a b
  | _, _ => false
  end.

(** The dataclass [__eq__] of the two content classes. *)
Definition Content_eq (a b : Content) : bool :=
  match a, b with
  | Text a, Text b =>
      String.eqb (TextContent.mime_type a) (TextContent.mime_type b)
      && String.eqb (TextContent.text a) (TextContent.text b)
  | Picture a, Picture b =>
      String.eqb (PictureContent.mime_type a) (PictureContent.mime_type b)
      && String.eqb (PictureContent.content_id a)
                    (PictureContent.content_id b)
      && Absential_eq String.eqb (PictureContent.source_location a)
                      (PictureContent.source_location b)
  | _, _ => false
  end.

Definition Value_eq (a b : Value) : bool :=
  match a, b with
  | VRole r, VRole r' => bool_decide (r = r')
  | VDatetime d, VDatetime d' => datetime_eq d d'
  | VStr s, VStr s' => String.eqb s s'
  | VContents t, VContents t' => list_eq Content_eq (items t) (items t')
  | VDictionary d, VDictionary d' => Mapping_eq (entries d) (entries d')
  | VAbsent, VAbsent => true
  | _, _ => false
  end.

Fixpoint collect {A} (l : list (Raises A)) : Raises (list A) :=
  match l with
  | [] => Returns []
  | Returns a :: l =>
      match collect l with
      | Returns l => Returns (a :: l)
      | Raised e => Raised e
      end
  | Raised e :: _ => Raised e
  end.

(** The tuple of the field values, in field order. *)
Definition astuple (o : Object) : Raises (list Value) :=
  collect (getattr o <$> Class.field_names (cls o)).

(** Modelled from the spec: the [__eq__] the [immut] dataclass bases
    generate (their binding in [__] is missing): same class and equal
    field tuples; objects of different classes are equal only when they
    are one object. *)
Definition dataclass_eq (a b : Object) : Raises bool :=
  if bool_decide (cls a = cls b)
  then match astuple a, astuple b with
       | Returns l, Returns k => Returns (list_eq Value_eq l k)
       | Raised e, _ | _, Raised e => Raised e
       end
  else Returns (bool_decide (ident a = ident b)).

(** [hash( o )] on an instance of a class the [immut] dataclass bases
    build (their binding in [__] is missing).  No class statement of the
    package defines [__hash__]; the bases generate [__eq__] and guard the
    attributes themselves, the class is not declared frozen to
    [dataclasses], and a dataclass with [__eq__] that is not frozen has
    [__hash__ = None]: hashing an instance is a [TypeError], whatever its
    fields. *)
Definition dataclass_hash (o : Object) : Raises Z := Raised UnhashableType.

(** ** Calls of [produce]

    A call [cls.produce( ... )] on one of the six message classes, given
    by its arguments other than [timestamp]. *)
Inductive ProduceCall : Type :=
  | UserMessage_produce (content : Sequence Content)
  | AssistantMessage_produce (content : Absential (Sequence Content))
  | SupervisorMessage_produce (content : Sequence Content)
      (cache_control : Absential (gmap string Any))
  | DocumentMessage_produce (document_id : string)
      (content : Sequence Content)
  | InvocationMessage_produce (invocation_id : string) (name : string)
      (arguments : gmap string Any)
  | ResultMessage_produce (invocation_id : string)
      (content : Sequence Content) (error : Absential string).

Definition produce (c : ProduceCall) (timestamp : Absential datetime)
  : Py Message :=
  match c with
  | UserMessage_produce content =>
      let* m := UserMessage.produce content timestamp in pure (OfUser m)
  | AssistantMessage_produce content =>
      let* m := AssistantMessage.produce content timestamp in
      pure (OfAssistant m)
  | SupervisorMessage_produce content cache_control =>
      let* m := SupervisorMessage.produce content cache_control timestamp in
      pure (OfSupervisor m)
  | DocumentMessage_produce document_id content =>
      let* m := DocumentMessage.produce document_id content timestamp in
      pure (OfDocument m)
  | InvocationMessage_produce invocation_id name arguments =>
      let* m :=
        InvocationMessage.produce invocation_id name arguments timestamp in
      pure (OfInvocation m)
  | ResultMessage_produce invocation_id content error =>
      let* m := ResultMessage.produce invocation_id content error timestamp in
      pure (OfResult m)
  end.

(** The world after [n] further readings of the clock. *)
Definition later (n : nat) (w : World) : World := Nat.iter n tick w.

(** Whether the clock is never set back from now on. *)
Definition never_set_back (w : World) : bool :=
  forallb (Z.leb 0) (elapses w).

(** ** Scenarios

    The ensemble "math" with its one invoker "add", registered in an
    otherwise empty registry. *)
Definition add_invoker : Invoker.t :=
  {| Invoker.name := "add";
     Invoker.invocable := fun _ _ => Returns PyNone;
     Invoker.arguments_schema := Frozen ∅;
     Invoker.ensemble := "math" |}.

Definition math_ensemble : Ensemble.t :=
  {| Ensemble.name := "math";
     Ensemble.invokers := Frozen {[ "add" := add_invoker ]};
     Ensemble.configuration := Frozen ∅;
     Ensemble.connection := absent |}.

Definition math_registry : Registry.t :=
  match Registry.register Registry.empty math_ensemble with
  | Returns r => r
  | Raised _ => Registry.empty
  end.

(** Two messages streamed at once: the first completes, the second
    aborts. *)
Definition two_streams : list ConversationEvent :=
  [ Allocation {| MessageAllocationEvent.message_id := "m1" |};
    Progress {| MessageProgressEvent.message_id := "m1";
                MessageProgressEvent.chunk := "Hel" |};
    Allocation {| MessageAllocationEvent.message_id := "m2" |};
    Progress {| MessageProgressEvent.message_id := "m1";
                MessageProgressEvent.chunk := "lo" |};
    Update {| MessageUpdateEvent.message_id := "m1" |};
    Abort {| MessageAbortEvent.message_id := "m2";
             MessageAbortEvent.error := "connection lost" |};
    Completion {| MessageCompletionEvent.message_id := "m1" |} ].

Definition two_streams_states : gmap string Stream.State :=
  {[ "m1" := Stream.Completed; "m2" := Stream.Aborted ]}.

(** A generation that fails after its first chunk. *)
Definition interrupted : list Stream.Step :=
  [Stream.Chunk "Hel"; Stream.Failed "connection lost"; Stream.Chunk "lo"].

(** Two text contents, and a store holding the first twice. *)
Definition hello : Instance :=
  AContent (Text {| TextContent.text := "Hello";
                    TextContent.mime_type := "text/plain" |}).

Definition goodbye : Instance :=
  AContent (Text {| TextContent.text := "Goodbye";
                    TextContent.mime_type := "text/plain" |}).

Definition greetings : gmap positive Instance :=
  {[ 1%positive := hello; 2%positive := goodbye; 3%positive := hello ]}.

(** * More of the package *)

(** ** [produce] called on the fields of a message

    The call that passes a message's own fields back to the factory of
    its class. *)
Definition call_of (m : Message) : ProduceCall :=
  match m with
  | OfUser m => UserMessage_produce (PyTuple (UserMessage.content m))
  | OfAssistant m =>
      AssistantMessage_produce
        match AssistantMessage.content m with
        | absent => absent
        | present t => present (PyTuple t)
        end
  | OfSupervisor m =>
      SupervisorMessage_produce
        (PyTuple (SupervisorMessage.content m))
        match SupervisorMessage.cache_control m with
        | absent => absent
        | present d => present (entries d)
        end
  | OfDocument m =>
      DocumentMessage_produce (DocumentMessage.document_id m)
                              (PyTuple (DocumentMessage.content m))
  | OfInvocation m =>
      InvocationMessage_produce (InvocationMessage.invocation_id m)
                                (InvocationMessage.name m)
                                (entries (InvocationMessage.arguments m))
  | OfResult m =>
      ResultMessage_produce (ResultMessage.invocation_id m)
                            (PyTuple (ResultMessage.content m))
                            (ResultMessage.error m)
  end.

(** The calls [calls], made one after the other without a timestamp:
    the messages of a conversation in the order they were produced. *)
Fixpoint produce_all (calls : list ProduceCall) : Py (list Message) :=
  match calls with
  | [] => pure []
  | c :: calls =>
      let* m := produce c absent in
      let* ms := produce_all calls in
      pure (m :: ms)
  end.

(** The message class and the canister class of a role. *)
Definition message_class (r : Role) : Class.t :=
  match r with
  | User => Class.UserMessage
  | Assistant => Class.AssistantMessage
  | Supervisor => Class.SupervisorMessage
  | Document => Class.DocumentMessage
  | Invocation => Class.InvocationMessage
  | Result => Class.ResultMessage
  end.

Definition canister_class (r : Role) : Class.t :=
  match r with
  | User => Class.UserCanister
  | Assistant => Class.AssistantCanister
  | Supervisor => Class.SupervisorCanister
  | Document => Class.DocumentCanister
  | Invocation => Class.InvocationCanister
  | Result => Class.ResultCanister
  end.

(** ** Dataclass fields, from the class statements *)

Module Fields.

(** The attributes each class body annotates, in the order written. *)
Definition annotations (c : Class.t) : list string :=
  match c with
  | Class.Content => ["mime_type"]
  | Class.TextContent => ["text"; "mime_type"]
  | Class.PictureContent => ["content_id"; "mime_type"; "source_location"]
  | Class.Canister => ["role"; "timestamp"]
  | Class.UserCanister => ["content"]
  | Class.AssistantCanister => ["content"]
  | Class.SupervisorCanister => ["content"; "cache_control"]
  | Class.DocumentCanister => ["content"; "document_id"]
  | Class.InvocationCanister => ["invocation_id"; "name"; "arguments"]
  | Class.ResultCanister => ["invocation_id"; "content"; "error"]
  | Class.Message => ["role"; "timestamp"]
  | Class.UserMessage => ["role"; "timestamp"; "content"]
  | Class.AssistantMessage => ["role"; "timestamp"; "content"]
  | Class.SupervisorMessage =>
      ["role"; "timestamp"; "content"; "cache_control"]
  | Class.DocumentMessage => ["role"; "timestamp"; "content"; "document_id"]
  | Class.InvocationMessage =>
      ["role"; "timestamp"; "invocation_id"; "name"; "arguments"]
  | Class.ResultMessage =>
      ["role"; "timestamp"; "invocation_id"; "content"; "error"]
  | Class.Event => ["message_id"]
  | Class.MessageAllocationEvent => ["message_id"]
  | Class.MessageProgressEvent => ["message_id"; "chunk"]
  | Class.MessageUpdateEvent => ["message_id"]
  | Class.MessageCompletionEvent => ["message_id"]
  | Class.MessageAbortEvent => ["message_id"; "error"]
  end.

(** A field declared again keeps its place; a new one goes last. *)
Definition add_field (fields : list string) (name : string) : list string :=
  if bool_decide (name ∈ fields) then fields else fields ++ [name].

(** The fields [dataclass] collects: those of the bases, furthest base
    first, then the annotations of the class itself. *)
Fixpoint collect_fields (depth : nat) (c : Class.t) : list string :=
  match depth with
  | O => []
  | S depth =>
      foldl add_field
        (foldl (fun fields b =>
                  match b with
                  | Class.Extends c' =>
                      foldl add_field fields (collect_fields depth c')
                  | _ => fields
                  end) [] (reverse (Class.bases c)))
        (annotations c)
  end.

Definition dataclass_fields (c : Class.t) : list string :=
  collect_fields 23 c.

End Fields.

(** * tests/test_000_converser/__.py *)

(** The character [.]. *)
Definition dot : Ascii.ascii := Eval cbv in Ascii.ascii_of_nat 46.

Fixpoint has_dot (s : string) : bool :=
  match s with
  | EmptyString => false
  | String c s => Ascii.eqb c dot || has_dot s
  end.

(** [s.rsplit( sep, maxsplit = 1 )]: the first element of the result
    and the elements after it, none or one. *)
Fixpoint rsplit (sep : Ascii.ascii) (s : string) : string * list string :=
  match s with
  | EmptyString => ("", [])
  | String c s' =>
      match rsplit sep s' with
      | (a, b :: _) => (String c a, [b])
      | (_, []) =>
          if Ascii.eqb c sep then ("", [s']) else (String c s', [])
      end
  end.

(** A Python [dict] with string keys, in insertion order. *)
Fixpoint dict_get {V} (d : list (string * V)) (k : string) : option V :=
  match d with
  | [] => None
  | (k', v) :: d => if String.eqb k' k then Some v else dict_get d k
  end.

(** [d[ k ] = v]: an existing key keeps its place. *)
Fixpoint dict_set {V} (d : list (string * V)) (k : string) (v : V)
  : list (string * V) :=
  match d with
  | [] => [(k, v)]
  | (k', v') :: d =>
      if String.eqb k' k then (k', v) :: d else (k', v') :: dict_set d k v
  end.

(** A dict comprehension over the pairs [kvs]. *)
Definition dict_of {V} (kvs : list (string * V)) : list (string * V) :=
  foldl (fun d kv => dict_set d kv.1 kv.2) [] kvs.

Module Tests.

Definition PACKAGE_NAME : string := "converser".

Definition PACKAGES_NAMES : list string := [PACKAGE_NAME].

(** [types.ModuleType], as far as the helpers look at it. *)
Record ModuleType : Type := { __name__ : string; __file__ : option string }.

(** The arguments [cache_import_module] passes to [import_module]: the
    name, and the package of a relative import. *)
Definition import_arguments (qname : string) : string * option string :=
  let (package_name, maybe_module_name) := rsplit dot qname in
  match maybe_module_name with
  | [] => (qname, None)
  | module_name :: _ => ("." +:+ module_name, Some package_name)
  end.

(** [cache_import_module( qname )], over the state of [_modules_cache];
    [import_module] is [importlib.import_module]. *)
Definition cache_import_module
    (import_module : string → option string → Raises ModuleType)
    (qname : string) (_modules_cache : gmap string ModuleType)
  : Raises ModuleType * gmap string ModuleType :=
  let arguments := import_arguments qname in
  match _modules_cache !! qname with
  | Some module => (Returns module, _modules_cache)
  | None =>
      match import_module arguments.1 arguments.2 with
      | Returns module => (Returns module, <[qname := module]> _modules_cache)
      | Raised e => (Raised e, _modules_cache)
      end
  end.

(** A path a glob yields. *)
Record Path : Type := { name : string; stem : string; is_file : bool }.

(** [_discover_module_names( package_name )]; [glob file] is what
    [Path( file ).parent.glob( '*.py' )] yields. *)
Definition _discover_module_names
    (import_module : string → option string → Raises ModuleType)
    (glob : string → list Path)
    (package_name : string) (_modules_cache : gmap string ModuleType)
  : Raises (list string) * gmap string ModuleType :=
  match cache_import_module import_module package_name _modules_cache with
  | (Returns package, _modules_cache) =>
      match __file__ package with
      | None | Some "" => (Returns [], _modules_cache)
      | Some file =>
          (Returns
             (stem <$>
                List.filter
                  (fun path =>
                     negb (bool_decide
                             (name path ∈ ["__init__.py"; "__main__.py"]))
                     && is_file path)
                  (glob file)),
           _modules_cache)
      end
  | (Raised e, _modules_cache) => (Raised e, _modules_cache)
  end.

(** The tables of the module, given what [_discover_module_names]
    returned for each package.  [None] is a [KeyError]. *)
Definition MODULES_NAMES_BY_PACKAGE_NAME (discovered : string → list string)
  : list (string * list string) :=
  dict_of ((fun name => (name, discovered name)) <$> PACKAGES_NAMES).

Fixpoint qnames_of (by_package : list (string * list string))
    (packages : list string) : option (list (string * string)) :=
  match packages with
  | [] => Some []
  | subpackage_name :: packages =>
      match dict_get by_package subpackage_name, qnames_of by_package packages
      with
      | Some modules, Some rest =>
          Some (((fun module_name =>
                    (subpackage_name +:+ "." +:+ module_name,
                     subpackage_name)) <$> modules) ++ rest)
      | _, _ => None
      end
  end.

Definition PACKAGES_NAMES_BY_MODULE_QNAME (discovered : string → list string)
  : option (list (string * string)) :=
  match qnames_of (MODULES_NAMES_BY_PACKAGE_NAME discovered) PACKAGES_NAMES
  with
  | Some kvs => Some (dict_of kvs)
  | None => None
  end.

Definition MODULES_QNAMES (discovered : string → list string)
  : option (list string) :=
  match PACKAGES_NAMES_BY_MODULE_QNAME discovered with
  | Some d => Some (fst <$> d)
  | None => None
  end.

(** [name.rsplit( '.', maxsplit = 1 )[ -1 ]] *)
Definition last_part (name : string) : string :=
  match rsplit dot name with
  | (_, module_name :: _) => module_name
  | (package_name, []) => package_name
  end.

Definition MODULES_NAMES_BY_MODULE_QNAME (discovered : string → list string)
  : option (list (string * string)) :=
  match PACKAGES_NAMES_BY_MODULE_QNAME discovered with
  | Some d => Some (dict_of ((fun name => (name, last_part name))
                             <$> (fst <$> d)))
  | None => None
  end.

End Tests.

(** ** More scenarios *)

(** A result message produced with everything supplied. *)
Definition failed_call : ProduceCall :=
  ResultMessage_produce "call-1" (PyList []) (present "boom").

Definition noon : World := {| clock := 1000; elapses := [5; 0] |}.

(** A clock that is set back by five microseconds after it was read. *)
Definition clock_set_back : World := {| clock := 1000; elapses := [-5] |}.

Definition converser_module : Tests.ModuleType :=
  {| Tests.__name__ := "converser";
     Tests.__file__ := Some "sources/converser/__init__.py" |}.

(** The cache once the package is imported. *)
Definition converser_cache : gmap string Tests.ModuleType :=
  {[ "converser" := converser_module ]}.

(** An importer that knows the package only. *)
Definition import_converser (name : string) (package : option string)
  : Raises Tests.ModuleType :=
  if String.eqb name "converser" then Returns converser_module
  else Raised NotImplementedError.

(** The modules of the package, as a glob of its directory yields them. *)
Definition converser_directory (file : string) : list Tests.Path :=
  [ {| Tests.name := "__init__.py"; Tests.stem := "__init__";
       Tests.is_file := true |};
    {| Tests.name := "canisters.py"; Tests.stem := "canisters";
       Tests.is_file := true |};
    {| Tests.name := "messages.py"; Tests.stem := "messages";
       Tests.is_file := true |} ].

(** * Properties *)

(** ** Message factories *)

Ltac run_produce :=
  intros;
  repeat match goal with
         | t : Absential datetime |- _ => destruct t
         end;
  do 2 eexists; (split; [reflexivity | try split; reflexivity]).

(** C1. The instance a [produce] factory returns has the role of its
    variant: [produce] always returns, and the role read back is User for
    [UserMessage], Assistant for [AssistantMessage], Supervisor for
    [SupervisorMessage], Document for [DocumentMessage], Invocation for
    [InvocationMessage] and Result for [ResultMessage]. *)
Theorem produce_role_is_variant_role :
  (∀ content timestamp w, ∃ m w',
      UserMessage.produce content timestamp w = (Returns m, w')
      ∧ UserMessage.role m = User)
  ∧ (∀ content timestamp w, ∃ m w',
      AssistantMessage.produce content timestamp w = (Returns m, w')
      ∧ AssistantMessage.role m = Assistant)
  ∧ (∀ content cache_control timestamp w, ∃ m w',
      SupervisorMessage.produce content cache_control timestamp w
      = (Returns m, w')
      ∧ SupervisorMessage.role m = Supervisor)
  ∧ (∀ document_id content timestamp w, ∃ m w',
      DocumentMessage.produce document_id content timestamp w
      = (Returns m, w')
      ∧ DocumentMessage.role m = Document)
  ∧ (∀ invocation_id name arguments timestamp w, ∃ m w',
      InvocationMessage.produce invocation_id name arguments timestamp w
      = (Returns m, w')
      ∧ InvocationMessage.role m = Invocation)
  ∧ (∀ invocation_id content error timestamp w, ∃ m w',
      ResultMessage.produce invocation_id content error timestamp w
      = (Returns m, w')
      ∧ ResultMessage.role m = Result).
Proof. repeat split; run_produce. Qed.

(** The scenario of the specification: a user message holding the one
    text "Hello", produced when the clock shows 1000. *)
Example UserMessage_produce_hello :
  UserMessage.produce
    (PyList [Text {| TextContent.text := "Hello";
                     TextContent.mime_type := "text/plain" |}])
    absent {| clock := 1000; elapses := [5] |}
  = (Returns
       {| UserMessage.role := User;
          UserMessage.timestamp := {| wall := 1000; tzinfo := Some utc |};
          UserMessage.content :=
            Tuple [Text {| TextContent.text := "Hello";
                           TextContent.mime_type := "text/plain" |}] |},
     {| clock := 1005; elapses := [] |}).
Proof. reflexivity. Qed.

(** A timestamp the caller supplies is kept, and the clock is not read. *)
Example ResultMessage_produce_given_timestamp :
  ResultMessage.produce "call-1" (PyTuple (Tuple [])) (present "boom")
    (present {| wall := 7; tzinfo := None |})
    {| clock := 1000; elapses := [5] |}
  = (Returns
       {| ResultMessage.role := Result;
          ResultMessage.timestamp := {| wall := 7; tzinfo := None |};
          ResultMessage.invocation_id := "call-1";
          ResultMessage.content := Tuple [];
          ResultMessage.error := present "boom" |},
     {| clock := 1000; elapses := [5] |}).
Proof. reflexivity. Qed.

(** C2, as the specification states it, fails: constructing a
    [UserMessage] directly with the role Assistant returns an instance,
    whose role is Assistant. *)
Lemma UserMessage_init_accepts_role_Assistant :
  UserMessage.init (Some Assistant)
                   (Some {| wall := 0; tzinfo := Some utc |})
                   (Some (Tuple []))
  = Returns {| UserMessage.role := Assistant;
               UserMessage.timestamp := {| wall := 0; tzinfo := Some utc |};
               UserMessage.content := Tuple [] |}
  ∧ is_raised (UserMessage.init (Some Assistant)
                 (Some {| wall := 0; tzinfo := Some utc |})
                 (Some (Tuple []))) = false.
Proof. split; reflexivity. Qed.

(** C2, amended. Direct construction of a message class does not look at
    the role: with every field supplied it returns, for any role given,
    an instance holding that very role. *)
Theorem init_keeps_given_role :
  (∀ r timestamp content, ∃ m,
      UserMessage.init (Some r) (Some timestamp) (Some content) = Returns m
      ∧ UserMessage.role m = r)
  ∧ (∀ r timestamp content, ∃ m,
      AssistantMessage.init (Some r) (Some timestamp) (Some content)
      = Returns m
      ∧ AssistantMessage.role m = r)
  ∧ (∀ r timestamp content cache_control, ∃ m,
      SupervisorMessage.init (Some r) (Some timestamp) (Some content)
                             (Some cache_control) = Returns m
      ∧ SupervisorMessage.role m = r)
  ∧ (∀ r timestamp content document_id, ∃ m,
      DocumentMessage.init (Some r) (Some timestamp) (Some content)
                           (Some document_id) = Returns m
      ∧ DocumentMessage.role m = r)
  ∧ (∀ r timestamp invocation_id name arguments, ∃ m,
      InvocationMessage.init (Some r) (Some timestamp) (Some invocation_id)
                             (Some name) (Some arguments) = Returns m
      ∧ InvocationMessage.role m = r)
  ∧ (∀ r timestamp invocation_id content error, ∃ m,
      ResultMessage.init (Some r) (Some timestamp) (Some invocation_id)
                         (Some content) (Some error) = Returns m
      ∧ ResultMessage.role m = r).
Proof. repeat split; intros; eexists; split; reflexivity. Qed.

(** C5. An optional field other than the timestamp that the caller
    leaves out stays the absence marker in the instance: the content of
    an [AssistantMessage], the cache control of a [SupervisorMessage] and
    the error of a [ResultMessage]. *)
Theorem produce_preserves_absence :
  (∀ timestamp w, ∃ m w',
      AssistantMessage.produce absent timestamp w = (Returns m, w')
      ∧ AssistantMessage.content m = absent)
  ∧ (∀ content timestamp w, ∃ m w',
      SupervisorMessage.produce content absent timestamp w = (Returns m, w')
      ∧ SupervisorMessage.cache_control m = absent)
  ∧ (∀ invocation_id content timestamp w, ∃ m w',
      ResultMessage.produce invocation_id content absent timestamp w
      = (Returns m, w')
      ∧ ResultMessage.error m = absent).
Proof. repeat split; run_produce. Qed.

(** C6. A supplied content sequence is stored as a tuple of the same
    elements in the same order, and a supplied mapping (arguments, cache
    control) as an immutable dictionary of the same entries. *)
Theorem produce_coerces_containers :
  (∀ content timestamp w, ∃ m w',
      UserMessage.produce content timestamp w = (Returns m, w')
      ∧ items (UserMessage.content m) = iter content)
  ∧ (∀ content timestamp w, ∃ m t w',
      AssistantMessage.produce (present content) timestamp w
      = (Returns m, w')
      ∧ AssistantMessage.content m = present t
      ∧ items t = iter content)
  ∧ (∀ content cache_control timestamp w, ∃ m w',
      SupervisorMessage.produce content cache_control timestamp w
      = (Returns m, w')
      ∧ items (SupervisorMessage.content m) = iter content)
  ∧ (∀ content cache_control timestamp w, ∃ m d w',
      SupervisorMessage.produce content (present cache_control) timestamp w
      = (Returns m, w')
      ∧ SupervisorMessage.cache_control m = present d
      ∧ ∀ key, entries d !! key = cache_control !! key)
  ∧ (∀ document_id content timestamp w, ∃ m w',
      DocumentMessage.produce document_id content timestamp w
      = (Returns m, w')
      ∧ items (DocumentMessage.content m) = iter content)
  ∧ (∀ invocation_id name arguments timestamp w, ∃ m w',
      InvocationMessage.produce invocation_id name arguments timestamp w
      = (Returns m, w')
      ∧ ∀ key, entries (InvocationMessage.arguments m) !! key
               = arguments !! key)
  ∧ (∀ invocation_id content error timestamp w, ∃ m w',
      ResultMessage.produce invocation_id content error timestamp w
      = (Returns m, w')
      ∧ items (ResultMessage.content m) = iter content).
Proof.
  repeat split; intros; destruct timestamp;
    repeat eexists; reflexivity.
Qed.

(** C10. [TextContent] built from [text] alone has the MIME type
    [text/plain]; [PictureContent] built without [source_location] holds
    the absence marker there; and no other content field has a default:
    leaving out [text], [content_id] or the MIME type of a picture is a
    fault. *)
Theorem content_constructor_defaults :
  (∀ text,
      TextContent.init (Some text) None
      = Returns {| TextContent.text := text;
                   TextContent.mime_type := "text/plain" |})
  ∧ (∀ content_id mime_type,
      PictureContent.init (Some content_id) (Some mime_type) None
      = Returns {| PictureContent.content_id := content_id;
                   PictureContent.mime_type := mime_type;
                   PictureContent.source_location := absent |})
  ∧ (∀ mime_type, is_raised (TextContent.init None mime_type) = true)
  ∧ (∀ mime_type source_location,
      is_raised (PictureContent.init None mime_type source_location) = true)
  ∧ (∀ content_id source_location,
      is_raised (PictureContent.init content_id None source_location)
      = true).
Proof.
  repeat split; intros; try reflexivity.
  destruct content_id; reflexivity.
Qed.

(** ** Default timestamps *)

Lemma tick_clock_le (w : World) :
  never_set_back w = true →
  clock w ≤ clock (tick w) ∧ never_set_back (tick w) = true.
Proof.
  unfold never_set_back, tick. intros H.
  destruct (elapses w) as [|d ds] eqn:E; simpl.
  - rewrite E. split; [lia | reflexivity].
  - simpl in H. apply andb_true_iff in H as [Hd Hds].
    apply Z.leb_le in Hd. split; [lia | exact Hds].
Qed.

Lemma later_clock_le (n : nat) (w : World) :
  never_set_back w = true →
  clock w ≤ clock (later n w) ∧ never_set_back (later n w) = true.
Proof.
  intros H. unfold later. induction n as [|n [IHc IHs]]; simpl.
  - split; [lia | exact H].
  - destruct (tick_clock_le _ IHs) as [Hc Hs]. split; [lia | exact Hs].
Qed.

Lemma produce_absent_timestamp (c : ProduceCall) (w : World) :
  ∃ m, produce c absent w = (Returns m, tick w)
       ∧ Message_timestamp m = {| wall := clock w; tzinfo := Some utc |}.
Proof.
  destruct c; eexists; (split; [reflexivity|]); simpl;
    f_equal; unfold utc; simpl; lia.
Qed.

(** C4, as the specification states it, fails: the factories read the
    realtime clock, and when that clock is set back between two calls
    that omit the timestamp, the later call's timestamp is before the
    earlier call's. *)
Lemma produce_timestamps_decrease_when_clock_set_back :
  ∃ m1 w1 m2 w2,
    produce (UserMessage_produce (PyList [])) absent clock_set_back
    = (Returns m1, w1)
    ∧ produce (UserMessage_produce (PyList [])) absent w1 = (Returns m2, w2)
    ∧ wall (Message_timestamp m1) = 1000
    ∧ wall (Message_timestamp m2) = 995
    ∧ ¬ (wall (Message_timestamp m1) ≤ wall (Message_timestamp m2)).
Proof.
  do 4 eexists. repeat split; try reflexivity. simpl. lia.
Qed.

(** C4, amended. A [produce] call that omits the timestamp, on any
    message class, returns an instance whose timestamp is in the zone UTC
    and denotes the instant the system clock showed at the call.  Of two
    such calls made one after the other (any number of clock readings
    apart) the timestamps compare as the clock readings at the two calls
    do: the later one's timestamp is not before the earlier one's when
    the clock was not set back in between. *)
Theorem produce_default_timestamp_utc_and_ordered :
  ∀ (c1 c2 : ProduceCall) (n : nat) (w : World), ∃ m1 w1 m2 w2,
    produce c1 absent w = (Returns m1, w1)
    ∧ produce c2 absent (later n w1) = (Returns m2, w2)
    ∧ tzinfo (Message_timestamp m1) = Some utc
    ∧ utc_instant (Message_timestamp m1) = Some (clock w)
    ∧ tzinfo (Message_timestamp m2) = Some utc
    ∧ utc_instant (Message_timestamp m2) = Some (clock (later n w1))
    ∧ (wall (Message_timestamp m1) ≤ wall (Message_timestamp m2)
       ↔ clock w ≤ clock (later n w1))
    ∧ (never_set_back w = true →
       wall (Message_timestamp m1) ≤ wall (Message_timestamp m2)).
Proof.
  intros c1 c2 n w.
  destruct (produce_absent_timestamp c1 w) as (m1 & E1 & T1).
  destruct (produce_absent_timestamp c2 (later n (tick w))) as (m2 & E2 & T2).
  exists m1, (tick w), m2, (tick (later n (tick w))).
  rewrite T1, T2. unfold utc_instant; simpl.
  split; [exact E1|]. split; [exact E2|].
  split; [reflexivity|]. split; [f_equal; lia|].
  split; [reflexivity|]. split; [f_equal; lia|].
  split; [reflexivity|].
  intros H. destruct (tick_clock_le w H) as [Hc Hs].
  destruct (later_clock_le n (tick w) Hs) as [Hl _]. lia.
Qed.

(** Two calls at noon, the clock moving forward: the timestamps are in
    order. *)
Lemma produce_default_timestamp_at_noon :
  never_set_back noon = true
  ∧ ∃ m1 w1 m2 w2,
      produce failed_call absent noon = (Returns m1, w1)
      ∧ produce (UserMessage_produce (PyList [])) absent w1 = (Returns m2, w2)
      ∧ wall (Message_timestamp m1) ≤ wall (Message_timestamp m2).
Proof.
  split; [reflexivity|].
  destruct (produce_default_timestamp_utc_and_ordered
              failed_call (UserMessage_produce (PyList [])) 0 noon)
    as (m1 & w1 & m2 & w2 & P1 & P2 & _ & _ & _ & _ & _ & H).
  exists m1, w1, m2, w2. split; [exact P1|]. split; [exact P2|].
  apply H. reflexivity.
Defined.

(** ** Registry lookups *)

Lemma lookup_invoker_unknown (es : list Ensemble.t) (name : string) :
  existsb (fun e => bool_decide
                      (is_Some (entries (Ensemble.invokers e) !! name))) es
  = false →
  Registry.lookup_invoker es name = absent.
Proof.
  induction es as [|e es IH]; simpl; [reflexivity|].
  intros H. apply orb_false_iff in H as [He Hes].
  apply bool_decide_eq_false in He.
  destruct (entries (Ensemble.invokers e) !! name) eqn:E.
  - exfalso. apply He. eauto.
  - auto.
Qed.

Lemma lookup_invoker_known (es : list Ensemble.t) (name : string) :
  existsb (fun e => bool_decide
                      (is_Some (entries (Ensemble.invokers e) !! name))) es
  = true →
  ∃ i, Registry.lookup_invoker es name = present i.
Proof.
  induction es as [|e es IH]; simpl; [discriminate|].
  intros H. destruct (entries (Ensemble.invokers e) !! name) eqn:E.
  - eauto.
  - apply IH. exact H.
Qed.

(** C8. With the registry modelled from the specification, looking up a
    name that no registered ensemble provides returns the absence marker
    and raises nothing; so does every lookup in the empty registry. *)
Theorem access_invoker_unknown_is_absent (r : Registry.t) (name : string) :
  Registry.registered r name = false →
  access_invoker r name = Returns absent
  ∧ access_invoker Registry.empty name = Returns absent.
Proof.
  intros H. split; [|reflexivity].
  simpl. rewrite (lookup_invoker_unknown _ _ H). reflexivity.
Qed.

(** The scenario of the specification: with the ensemble "math" and its
    invoker "add" registered, "subtract" is unknown and its lookup
    returns the absence marker. *)
Lemma access_invoker_subtract_is_absent :
  Registry.registered math_registry "subtract" = false
  ∧ access_invoker math_registry "subtract" = Returns absent
  ∧ access_invoker Registry.empty "subtract" = Returns absent.
Proof.
  split; [reflexivity|].
  apply (access_invoker_unknown_is_absent math_registry "subtract").
  reflexivity.
Defined.

(** The registered name is found. *)
Example access_invoker_add_is_present :
  access_invoker math_registry "add" = Returns (present add_invoker).
Proof. reflexivity. Qed.

(** ** The streaming protocol *)

Section StreamShape.
Import Stream.

Lemma events_of_app (id : string) (l k : list ConversationEvent) :
  events_of id (l ++ k) = events_of id l ++ events_of id k.
Proof. apply List.filter_app. Qed.

Lemma shape_step (s s' : State) (e : ConversationEvent)
    (p : list ConversationEvent) :
  transition s e = Some s' → shape s p → shape s' (p ++ [e]).
Proof.
  destruct s, e; simpl; intros T Hp; inversion T; subst; clear T; simpl.
  - subst. eauto.
  - destruct Hp as [a ->]. exists a, [Progress e]. auto.
  - destruct Hp as [a ->]. exists a, [Update e]. auto.
  - destruct Hp as [a ->]. exists a, [], e. auto.
  - destruct Hp as [a ->]. exists a, [], e. auto.
  - destruct Hp as (a & mid & -> & Hne & Hs).
    exists a, (mid ++ [Progress e]). repeat split.
    + destruct mid; discriminate.
    + rewrite forallb_app, Hs. reflexivity.
  - destruct Hp as (a & mid & -> & Hne & Hs).
    exists a, (mid ++ [Update e]). repeat split.
    + destruct mid; discriminate.
    + rewrite forallb_app, Hs. reflexivity.
  - destruct Hp as (a & mid & -> & Hne & Hs). exists a, mid, e. auto.
  - destruct Hp as (a & mid & -> & Hne & Hs). exists a, mid, e. auto.
Qed.

Lemma emit_shape (states states' : gmap string State)
    (e : ConversationEvent) (pre : list ConversationEvent) :
  (∀ id, shape (state_of states id) (events_of id pre)) →
  emit states e = Some states' →
  ∀ id, shape (state_of states' id) (events_of id (pre ++ [e])).
Proof.
  intros Inv E id. unfold emit in E.
  destruct (transition _ e) as [s'|] eqn:T; [|discriminate].
  injection E as <-. rewrite events_of_app. unfold state_of.
  destruct (decide (Event_message_id e = id)) as [<-|Hne].
  - rewrite lookup_insert_eq. simpl.
    rewrite bool_decide_eq_true_2 by reflexivity.
    eapply shape_step; [exact T | apply Inv].
  - rewrite lookup_insert_ne by exact Hne. simpl.
    rewrite bool_decide_eq_false_2 by exact Hne.
    rewrite app_nil_r. apply Inv.
Qed.

Lemma run_shape (es pre : list ConversationEvent)
    (states states' : gmap string State) :
  (∀ id, shape (state_of states id) (events_of id pre)) →
  run states es = Some states' →
  ∀ id, shape (state_of states' id) (events_of id (pre ++ es)).
Proof.
  revert pre states. induction es as [|e es IH]; simpl; intros pre states Inv R.
  - injection R as <-. rewrite app_nil_r. exact Inv.
  - destruct (emit states e) as [states1|] eqn:E; [|discriminate].
    intros id. replace (pre ++ e :: es) with ((pre ++ [e]) ++ es)
      by (rewrite <- app_assoc; reflexivity).
    eapply IH; [|exact R]. eapply emit_shape; eassumption.
Qed.

Lemma streaming_not_counted (f : ConversationEvent → bool)
    (mid : list ConversationEvent) :
  (∀ e, is_streaming e = true → f e = false) →
  forallb is_streaming mid = true → List.filter f mid = [].
Proof.
  intros Hf. induction mid as [|e mid IH]; simpl; [reflexivity|].
  intros H. apply andb_true_iff in H as [He Hm].
  rewrite (Hf e He). auto.
Qed.

Lemma streaming_not_terminal (e : ConversationEvent) :
  is_streaming e = true → is_terminal e = false.
Proof. destruct e; cbv; congruence. Qed.

Lemma terminal_not_in_streaming (mid : list ConversationEvent)
    (e : ConversationEvent) :
  forallb is_streaming mid = true → is_terminal e = true → ¬ List.In e mid.
Proof.
  intros Hs He Hin. rewrite forallb_forall in Hs.
  apply Hs in Hin. apply streaming_not_terminal in Hin. congruence.
Qed.

Lemma split_at_end {A} (q pre post : list A) (t e : A) :
  q ++ [t] = pre ++ e :: post → post = [] ∨ List.In e q.
Proof.
  destruct (List.exists_last (l := e :: post)) as (post' & x & E);
    [discriminate|].
  intros H. destruct post' as [|y post'].
  - simpl in E. injection E as -> ->. left. reflexivity. 
  - right. rewrite E in H. rewrite app_assoc in H.
    apply List.app_inj_tail in H as [-> _].
    injection E as -> _. apply List.in_or_app. right. left. reflexivity.
Qed.

End StreamShape.

Lemma before_terminal_not_terminal (a : MessageAllocationEvent.t)
    (mid : list ConversationEvent) (e : ConversationEvent) :
  forallb Stream.is_streaming mid = true →
  List.In e (Allocation a :: mid) → Stream.is_terminal e = false.
Proof.
  intros Hs [<-|Hin]; [reflexivity|].
  rewrite forallb_forall in Hs. apply streaming_not_terminal. auto.
Qed.

Lemma initial_shape (id : string) :
  Stream.shape (Stream.state_of ∅ id) (Stream.events_of id []).
Proof. unfold Stream.state_of. rewrite lookup_empty. reflexivity. Qed.

Ltac count_events Hs :=
  unfold Stream.count; simpl;
  rewrite ?List.filter_app;
  rewrite ?(streaming_not_counted Stream.is_completion _
              ltac:(intros []; cbv; congruence) Hs),
          ?(streaming_not_counted Stream.is_abort _
              ltac:(intros []; cbv; congruence) Hs);
  simpl.

(** In a stream the state machine accepts, with the events of several
    messages interleaved, the events of one message begin with its
    allocation;
    once the message is finished its last event is a completion or an
    abort; nothing follows a completion or an abort; at most one of the
    two occurs at all, exactly one for a finished message; and a message
    that has an abort event has exactly one and no completion. *)
Theorem stream_events_of_message_ordered
    (es : list ConversationEvent) (states : gmap string Stream.State)
    (message_id : string) :
  Stream.run ∅ es = Some states →
  (∀ e, head (Stream.events_of message_id es) = Some e →
        Stream.is_allocation e = true)
  ∧ (Stream.finished (Stream.state_of states message_id) = true →
     (∃ e, last (Stream.events_of message_id es) = Some e
           ∧ Stream.is_terminal e = true)
     ∧ Stream.count Stream.is_terminal (Stream.events_of message_id es)
       = 1%nat)
  ∧ (∀ pre e post,
        Stream.events_of message_id es = pre ++ e :: post →
        Stream.is_terminal e = true → post = [])
  ∧ (Stream.count Stream.is_completion (Stream.events_of message_id es)
     + Stream.count Stream.is_abort (Stream.events_of message_id es)
     ≤ 1)%nat
  ∧ (∀ x, List.In (Abort x) (Stream.events_of message_id es) →
        Stream.state_of states message_id = Stream.Aborted
        ∧ Stream.count Stream.is_abort (Stream.events_of message_id es)
          = 1%nat
        ∧ Stream.count Stream.is_completion
            (Stream.events_of message_id es) = 0%nat).
Proof.
  intros R.
  pose proof (run_shape es [] ∅ states initial_shape R message_id) as Hp.
  simpl in Hp.
  destruct (Stream.state_of states message_id);
    set (p := Stream.events_of message_id es) in *; clearbody p; simpl in Hp;
    (split; [|split; [|split; [|split]]]).
  (* Unstarted *)
  - subst p. discriminate.
  - discriminate.
  - subst p. intros [] ? ? E; discriminate.
  - subst p. cbv. lia.
  - subst p. intros x [].
  (* Allocated *)
  - destruct Hp as [a ->]. intros e [= <-]. reflexivity.
  - discriminate.
  - destruct Hp as [a ->]. intros pre e post E T.
    assert (List.In e [Allocation a]) as Hin
        by (rewrite E; apply List.in_elt).
    apply (before_terminal_not_terminal a []) in Hin; [congruence|auto].
  - destruct Hp as [a ->]. cbv. lia.
  - destruct Hp as [a ->]. intros x [|[]]; discriminate.
  (* Streaming *)
  - destruct Hp as (a & mid & -> & Hne & Hs). intros e [= <-]. reflexivity.
  - discriminate.
  - destruct Hp as (a & mid & -> & Hne & Hs). intros pre e post E T.
    assert (List.In e (Allocation a :: mid)) as Hin
        by (rewrite E; apply List.in_elt).
    apply before_terminal_not_terminal in Hin; [congruence|auto].
  - destruct Hp as (a & mid & -> & Hne & Hs). count_events Hs. lia.
  - destruct Hp as (a & mid & -> & Hne & Hs). intros x Hin.
    apply before_terminal_not_terminal in Hin; [discriminate|auto].
  (* Completed *)
  - destruct Hp as (a & mid & c & -> & Hs). intros e [= <-]. reflexivity.
  - destruct Hp as (a & mid & c & -> & Hs). intros _. split.
    + exists (Completion c). split; [|reflexivity].
      change (Allocation a :: mid ++ [Completion c])
        with ((Allocation a :: mid) ++ [Completion c]).
      apply last_snoc.
    + unfold Stream.count; simpl. rewrite List.filter_app.
      rewrite (streaming_not_counted Stream.is_terminal _
                 streaming_not_terminal Hs). reflexivity.
  - destruct Hp as (a & mid & c & -> & Hs). intros pre e post E T.
    change (Allocation a :: mid ++ [Completion c])
      with ((Allocation a :: mid) ++ [Completion c]) in E.
    apply split_at_end in E as [->|Hin]; [reflexivity|].
    apply before_terminal_not_terminal in Hin; [congruence|auto].
  - destruct Hp as (a & mid & c & -> & Hs). count_events Hs. lia.
  - destruct Hp as (a & mid & c & -> & Hs). intros x Hin.
    change (Allocation a :: mid ++ [Completion c])
      with ((Allocation a :: mid) ++ [Completion c]) in Hin.
    apply List.in_app_or in Hin as [Hin|[?|[]]]; [|discriminate].
    apply before_terminal_not_terminal in Hin; [discriminate|auto].
  (* Aborted *)
  - destruct Hp as (a & mid & y & -> & Hs). intros e [= <-]. reflexivity.
  - destruct Hp as (a & mid & y & -> & Hs). intros _. split.
    + exists (Abort y). split; [|reflexivity].
      change (Allocation a :: mid ++ [Abort y])
        with ((Allocation a :: mid) ++ [Abort y]).
      apply last_snoc.
    + unfold Stream.count; simpl. rewrite List.filter_app.
      rewrite (streaming_not_counted Stream.is_terminal _
                 streaming_not_terminal Hs). reflexivity.
  - destruct Hp as (a & mid & y & -> & Hs). intros pre e post E T.
    change (Allocation a :: mid ++ [Abort y])
      with ((Allocation a :: mid) ++ [Abort y]) in E.
    apply split_at_end in E as [->|Hin]; [reflexivity|].
    apply before_terminal_not_terminal in Hin; [congruence|auto].
  - destruct Hp as (a & mid & y & -> & Hs). count_events Hs. lia.
  - destruct Hp as (a & mid & y & -> & Hs). intros x _.
    split; [reflexivity|]. split; count_events Hs; reflexivity.
Qed.

(** The second of two interleaved messages aborts: its events begin with
    the allocation and hold one abort and no completion. *)
Lemma two_streams_ordered :
  Stream.run ∅ two_streams = Some two_streams_states
  ∧ (∀ e, head (Stream.events_of "m2" two_streams) = Some e →
          Stream.is_allocation e = true)
  ∧ (∀ x, List.In (Abort x) (Stream.events_of "m2" two_streams) →
          Stream.state_of two_streams_states "m2" = Stream.Aborted
          ∧ Stream.count Stream.is_abort (Stream.events_of "m2" two_streams)
            = 1%nat
          ∧ Stream.count Stream.is_completion
              (Stream.events_of "m2" two_streams) = 0%nat).
Proof.
  assert (Stream.run ∅ two_streams = Some two_streams_states) as R
      by (vm_compute; reflexivity).
  split; [exact R|].
  pose proof (stream_events_of_message_ordered
                two_streams two_streams_states "m2" R) as (A & _ & _ & _ & B).
  split; [exact A | exact B].
Defined.

Lemma continue_form (id : string) (steps : list Stream.Step) :
  ∃ mid t,
    Stream.continue id steps = mid ++ [t]
    ∧ forallb Stream.is_streaming mid = true
    ∧ ((existsb Stream.is_failure steps = false
        ∧ t = Completion {| MessageCompletionEvent.message_id := id |})
       ∨ (existsb Stream.is_failure steps = true
          ∧ ∃ error,
              Stream.Failed error ∈ steps
              ∧ t = Abort {| MessageAbortEvent.message_id := id;
                             MessageAbortEvent.error := error |})).
Proof.
  induction steps as [|[chunk| |error] steps (mid & t & E & Hs & Ht)].
  - exists [], (Completion {| MessageCompletionEvent.message_id := id |}).
    simpl. auto.
  - eexists (_ :: mid), t. simpl. rewrite E, Hs.
    split; [reflexivity|]. split; [reflexivity|].
    destruct Ht as [Ht|(Hf & error & Hin & Ht)]; [left; exact Ht|].
    right. split; [exact Hf|]. exists error. split; [right|]; assumption.
  - eexists (_ :: mid), t. simpl. rewrite E, Hs.
    split; [reflexivity|]. split; [reflexivity|].
    destruct Ht as [Ht|(Hf & error' & Hin & Ht)]; [left; exact Ht|].
    right. split; [exact Hf|]. exists error'. split; [right|]; assumption.
  - exists [], (Abort {| MessageAbortEvent.message_id := id;
                         MessageAbortEvent.error := error |}).
    simpl. split; [reflexivity|]. split; [reflexivity|].
    right. split; [reflexivity|]. exists error. split; [left | reflexivity].
Qed.

Lemma continue_message_id (id : string) (steps : list Stream.Step)
    (e : ConversationEvent) :
  List.In e (Stream.continue id steps) → Event_message_id e = id.
Proof.
  induction steps as [|[chunk| |error] steps IH]; simpl.
  - intros [<-|[]]. reflexivity.
  - intros [<-|H]; [reflexivity | auto].
  - intros [<-|H]; [reflexivity | auto].
  - intros [<-|[]]. reflexivity.
Qed.

Lemma state_of_insert (id : string) (st : Stream.State)
    (states : gmap string Stream.State) :
  Stream.state_of (<[id := st]> states) id = st.
Proof. unfold Stream.state_of. rewrite lookup_insert_eq. reflexivity. Qed.

Lemma run_continue (id : string) (steps : list Stream.Step)
    (states : gmap string Stream.State) :
  Stream.state_of states id = Stream.Allocated
  ∨ Stream.state_of states id = Stream.Streaming →
  ∃ states', Stream.run states (Stream.continue id steps) = Some states'
             ∧ Stream.finished (Stream.state_of states' id) = true.
Proof.
  revert states.
  induction steps as [|[chunk| |error] steps IH]; intros states Hst.
  - simpl. unfold Stream.emit. simpl. fold (Stream.state_of states id).
    eexists. destruct Hst as [E|E]; rewrite E; simpl;
      (split; [reflexivity | rewrite state_of_insert; reflexivity]).
  - destruct (IH (<[id := Stream.Streaming]> states)
                 (or_intror (state_of_insert id _ states)))
      as (states' & R & F).
    exists states'. split; [|exact F].
    simpl. unfold Stream.emit. simpl. fold (Stream.state_of states id).
    destruct Hst as [E|E]; rewrite E; simpl; exact R.
  - destruct (IH (<[id := Stream.Streaming]> states)
                 (or_intror (state_of_insert id _ states)))
      as (states' & R & F).
    exists states'. split; [|exact F].
    simpl. unfold Stream.emit. simpl. fold (Stream.state_of states id).
    destruct Hst as [E|E]; rewrite E; simpl; exact R.
  - simpl. unfold Stream.emit. simpl. fold (Stream.state_of states id).
    eexists. destruct Hst as [E|E]; rewrite E; simpl;
      (split; [reflexivity | rewrite state_of_insert; reflexivity]).
Qed.

(** C9. With the producer modelled from the specification: the events
    emitted for one message begin with its allocation and end with
    exactly one completion or abort; nothing follows that event; every
    event carries the identifier of the message; a generation in which
    something fails emits exactly one abort, carrying the description of
    a failure, and no completion; one in which nothing fails emits one
    completion and no abort; and the state machine of the protocol
    accepts the sequence and ends in a terminal state. *)
Theorem generated_events_are_ordered
    (message_id : string) (steps : list Stream.Step) :
  (∃ a, head (Stream.generate message_id steps) = Some (Allocation a))
  ∧ (∃ e, last (Stream.generate message_id steps) = Some e
          ∧ Stream.is_terminal e = true)
  ∧ Stream.count Stream.is_terminal (Stream.generate message_id steps)
    = 1%nat
  ∧ (∀ pre e post,
        Stream.generate message_id steps = pre ++ e :: post →
        Stream.is_terminal e = true → post = [])
  ∧ (∀ e, List.In e (Stream.generate message_id steps) →
          Event_message_id e = message_id)
  ∧ (existsb Stream.is_failure steps = true →
     Stream.count Stream.is_abort (Stream.generate message_id steps) = 1%nat
     ∧ Stream.count Stream.is_completion (Stream.generate message_id steps)
       = 0%nat
     ∧ ∃ error,
         Stream.Failed error ∈ steps
         ∧ last (Stream.generate message_id steps)
           = Some (Abort {| MessageAbortEvent.message_id := message_id;
                            MessageAbortEvent.error := error |}))
  ∧ (existsb Stream.is_failure steps = false →
     Stream.count Stream.is_completion (Stream.generate message_id steps)
     = 1%nat
     ∧ Stream.count Stream.is_abort (Stream.generate message_id steps)
       = 0%nat)
  ∧ (∃ states,
        Stream.run ∅ (Stream.generate message_id steps) = Some states
        ∧ Stream.finished (Stream.state_of states message_id) = true).
Proof.
  unfold Stream.generate.
  set (a := {| MessageAllocationEvent.message_id := message_id |}).
  destruct (continue_form message_id steps) as (mid & t & E & Hs & Ht).
  assert (Stream.is_terminal t = true) as Hterm
      by (destruct Ht as [[_ ->]|(_ & error & _ & ->)]; reflexivity).
  assert (last (Allocation a :: mid ++ [t]) = Some t) as Hlast.
  { change (Allocation a :: mid ++ [t]) with ((Allocation a :: mid) ++ [t]).
    apply last_snoc. }
  split; [|split; [|split; [|split; [|split; [|split; [|split]]]]]].
  - exists a. reflexivity.
  - rewrite E. exists t. split; [exact Hlast | exact Hterm].
  - rewrite E. unfold Stream.count. simpl. rewrite List.filter_app.
    rewrite (streaming_not_counted Stream.is_terminal _
               streaming_not_terminal Hs). simpl. rewrite Hterm. reflexivity.
  - rewrite E. intros pre e post Eq T.
    change (Allocation a :: mid ++ [t])
      with ((Allocation a :: mid) ++ [t]) in Eq.
    apply split_at_end in Eq as [->|Hin]; [reflexivity|].
    apply before_terminal_not_terminal in Hin; [congruence | exact Hs].
  - intros e [<-|Hin]; [reflexivity|].
    eapply continue_message_id. exact Hin.
  - intros Hf. destruct Ht as [[Hn _]|(_ & error & Hin & ->)]; [congruence|].
    rewrite E. split; [|split].
    + count_events Hs. reflexivity.
    + count_events Hs. reflexivity.
    + exists error. split; [exact Hin | exact Hlast].
  - intros Hf. destruct Ht as [[_ ->]|(Hn & _)]; [|congruence].
    rewrite E. split; count_events Hs; reflexivity.
  - simpl. unfold Stream.emit. simpl.
    unfold a. simpl. rewrite lookup_empty. simpl.
    apply run_continue. left. apply state_of_insert.
Qed.

(** A generation that fails after its first chunk: one abort, no
    completion, and the abort is last. *)
Lemma interrupted_generation :
  existsb Stream.is_failure interrupted = true
  ∧ Stream.count Stream.is_abort (Stream.generate "m1" interrupted) = 1%nat
  ∧ Stream.count Stream.is_completion (Stream.generate "m1" interrupted)
    = 0%nat
  ∧ ∃ error,
      Stream.Failed error ∈ interrupted
      ∧ last (Stream.generate "m1" interrupted)
        = Some (Abort {| MessageAbortEvent.message_id := "m1";
                         MessageAbortEvent.error := error |}).
Proof.
  split; [reflexivity|].
  apply (generated_events_are_ordered "m1" interrupted). reflexivity.
Defined.

(** ** Instances as objects *)

Lemma class_of_immutable (x : Instance) :
  Class.immutable (class_of x) = true.
Proof. destruct x as [[]|[]|[]]; reflexivity. Qed.

Lemma field_names_attributes (x : Instance) :
  Class.field_names (class_of x) = fst <$> attributes x.
Proof. destruct x as [[]|[]|[]]; reflexivity. Qed.

Lemma astuple_reify (i : positive) (x : Instance) :
  astuple (reify i x) = Returns (snd <$> attributes x).
Proof. destruct x as [[]|[]|[]]; reflexivity. Qed.

(** C3. With attribute assignment and deletion modelled from the
    specification: an instance of any message, content or event class is
    immutable; assigning to an attribute or deleting one raises a fault
    and leaves the object, hence every field, as it was. *)
Theorem instances_are_immutable
    (i : positive) (x : Instance) (name : string) (v : Value) :
  setattr (reify i x) name v
  = (Raised (AttributeImmutability name), reify i x)
  ∧ delattr (reify i x) name
    = (Raised (AttributeImmutability name), reify i x)
  ∧ (∀ field, getattr (snd (setattr (reify i x) name v)) field
              = getattr (reify i x) field)
  ∧ (∀ field, getattr (snd (delattr (reify i x) name)) field
              = getattr (reify i x) field).
Proof.
  unfold setattr, delattr. simpl. rewrite class_of_immutable.
  repeat split.
Qed.

(** ** Equality and hashing *)

Lemma Any_eq_true : ∀ a b : Any, Any_eq a b = true → a = b.
Proof.
  fix IH 1.
  intros [|x|s|l] [|y|t|k]; simpl; try discriminate; intros E.
  - reflexivity.
  - apply Z.eqb_eq in E. congruence.
  - apply String.eqb_eq in E. congruence.
  - f_equal. revert k E.
    induction l as [|a l IHl]; intros [|b k] E; try discriminate.
    + reflexivity.
    + apply andb_true_iff in E as [Eab Elk].
      f_equal; [apply IH; exact Eab | apply IHl; exact Elk].
Qed.

Lemma Any_eq_refl : ∀ a : Any, Any_eq a a = true.
Proof.
  fix IH 1.
  intros [|x|s|l]; simpl.
  - reflexivity.
  - apply Z.eqb_refl.
  - apply String.eqb_refl.
  - induction l as [|a l IHl]; [reflexivity|].
    rewrite IH, IHl. reflexivity.
Qed.

Lemma Mapping_eq_refl (a : gmap string Any) : Mapping_eq a a = true.
Proof.
  unfold Mapping_eq. rewrite Nat.eqb_refl. simpl.
  apply forallb_forall. intros [k v] Hin. simpl.
  apply list_elem_of_In, elem_of_map_to_list in Hin.
  rewrite Hin. apply Any_eq_refl.
Qed.

Lemma Mapping_eq_true (a b : gmap string Any) :
  Mapping_eq a b = true → a = b.
Proof.
  unfold Mapping_eq. intros E. apply andb_true_iff in E as [Es Ef].
  apply Nat.eqb_eq in Es. rewrite forallb_forall in Ef.
  apply map_subseteq_size_eq; [|lia].
  apply map_subseteq_spec. intros k v Hk.
  apply elem_of_map_to_list, list_elem_of_In, Ef in Hk. simpl in Hk.
  destruct (b !! k) as [v'|]; [|discriminate].
  apply Any_eq_true in Hk. congruence.
Qed.

Lemma Content_eq_true (a b : Content) : Content_eq a b = true → a = b.
Proof.
  destruct a as [[t m]|[c m s]], b as [[t' m']|[c' m' s']]; simpl;
    try discriminate; intros E;
    repeat match goal with
           | E : _ && _ = true |- _ => apply andb_true_iff in E as [? E]
           | E : String.eqb _ _ = true |- _ => apply String.eqb_eq in E
           end; subst; try reflexivity.
  destruct s, s'; simpl in E; try discriminate; [reflexivity|].
  apply String.eqb_eq in E. subst. reflexivity.
Qed.

Lemma Content_eq_refl (a : Content) : Content_eq a a = true.
Proof.
  destruct a as [[t m]|[c m s]]; simpl; rewrite ?String.eqb_refl;
    [reflexivity|].
  destruct s; simpl; rewrite ?String.eqb_refl; reflexivity.
Qed.

Lemma list_eq_true {A} (eq : A → A → bool) (l k : list A) :
  (∀ a b, eq a b = true → a = b) → list_eq eq l k = true → l = k.
Proof.
  intros Heq. revert k. induction l as [|a l IH]; intros [|b k] E;
    try discriminate; [reflexivity|].
  simpl in E. apply andb_true_iff in E as [Eab Elk].
  f_equal; auto.
Qed.

Lemma list_eq_refl {A} (eq : A → A → bool) (l : list A) :
  (∀ a, eq a a = true) → list_eq eq l l = true.
Proof.
  intros Heq. induction l as [|a l IH]; simpl; [reflexivity|].
  rewrite Heq, IH. reflexivity.
Qed.

Lemma datetime_eq_refl (d : datetime) : datetime_eq d d = true.
Proof.
  unfold datetime_eq. destruct (utc_instant d); apply Z.eqb_refl.
Qed.

(** Aware datetimes in different zones that denote one instant are
    equal; a naive datetime equals no aware one. *)
Example datetime_eq_across_zones :
  datetime_eq {| wall := 3600; tzinfo := Some {| utcoffset := 3600 |} |}
              {| wall := 0; tzinfo := Some utc |} = true
  ∧ datetime_eq {| wall := 0; tzinfo := None |}
                {| wall := 0; tzinfo := Some utc |} = false.
Proof. split; reflexivity. Qed.

Lemma Value_eq_refl (v : Value) : Value_eq v v = true.
Proof.
  destruct v; simpl.
  - apply bool_decide_eq_true_2. reflexivity.
  - apply datetime_eq_refl.
  - apply String.eqb_refl.
  - apply list_eq_refl, Content_eq_refl.
  - apply Mapping_eq_refl.
  - reflexivity.
Qed.

Lemma attribute_names_NoDup (x : Instance) : NoDup (fst <$> attributes x).
Proof.
  destruct x as [[]|[]|[]]; simpl;
    repeat (apply NoDup_cons; split;
            [rewrite ?elem_of_cons, elem_of_nil; intuition discriminate|]);
    apply NoDup_nil_2.
Qed.

Lemma getattr_reify (i : positive) (x : Instance) (f : string) (u : Value) :
  getattr (reify i x) f = Returns u → (f, u) ∈ attributes x.
Proof.
  unfold getattr, reify. simpl.
  destruct (list_to_map (attributes x) !! f) as [w|] eqn:E; [|discriminate].
  intros [= <-]. apply elem_of_list_to_map_2 in E. exact E.
Qed.

Lemma differing_value_list_eq (lx ly : list (string * Value))
    (f : string) (u v : Value) :
  fst <$> lx = fst <$> ly → NoDup (fst <$> lx) →
  (f, u) ∈ lx → (f, v) ∈ ly → Value_eq u v = false →
  list_eq Value_eq (snd <$> lx) (snd <$> ly) = false.
Proof.
  revert ly. induction lx as [|[k a] lx IH]; intros [|[k' b] ly];
    rewrite ?fmap_cons, ?fmap_nil; cbn [fst snd list_eq];
    intros Hk Hnd Hu Hv Huv; try discriminate.
  - apply elem_of_nil in Hu. contradiction.
  - injection Hk as <- Hk. apply NoDup_cons in Hnd as [Hfresh Hnd].
    assert (∀ (l : list (string * Value)) (w : Value),
               (k, w) ∈ l → fst <$> l = fst <$> lx → False) as Hno.
    { intros l w Hin El. apply Hfresh. rewrite <- El.
      apply (list_elem_of_fmap_2 fst) in Hin. exact Hin. }
    apply elem_of_cons in Hu as [Eu|Hu];
      apply elem_of_cons in Hv as [Ev|Hv];
      try (inversion Eu; subst; clear Eu);
      try (inversion Ev; subst; clear Ev).
    + rewrite Huv. reflexivity.
    + exfalso. eapply Hno; [exact Hv|congruence].
    + exfalso. eapply (Hno lx); [exact Hu|reflexivity].
    + rewrite (IH ly Hk Hnd Hu Hv Huv). apply andb_false_r.
Qed.

Lemma elem_getattr_reify (i : positive) (x : Instance) (f : string)
    (u : Value) :
  (f, u) ∈ attributes x → getattr (reify i x) f = Returns u.
Proof.
  intros Hin. unfold getattr, reify. simpl.
  rewrite (elem_of_list_to_map_1 _ _ _ (attribute_names_NoDup x) Hin).
  reflexivity.
Qed.

Lemma agreeing_value_list_eq (lx ly : list (string * Value)) :
  fst <$> lx = fst <$> ly →
  (∀ f u v, (f, u) ∈ lx → (f, v) ∈ ly → Value_eq u v = true) →
  list_eq Value_eq (snd <$> lx) (snd <$> ly) = true.
Proof.
  revert ly. induction lx as [|[k a] lx IH]; intros [|[k' b] ly];
    rewrite ?fmap_cons, ?fmap_nil; cbn [fst snd list_eq];
    intros Hk Hall; try discriminate; [reflexivity|].
  injection Hk as <- Hk. apply andb_true_iff. split.
  - apply (Hall k); left.
  - apply IH; [exact Hk|]. intros f u v Hu Hv.
    apply (Hall f); right; assumption.
Qed.

Lemma dataclass_eq_reify (i j : positive) (x y : Instance) :
  class_of x = class_of y →
  dataclass_eq (reify i x) (reify j y)
  = Returns (list_eq Value_eq (snd <$> attributes x) (snd <$> attributes y)).
Proof.
  intros Hc. unfold dataclass_eq. rewrite !astuple_reify. simpl.
  rewrite bool_decide_eq_true_2 by exact Hc. reflexivity.
Qed.

(** C7, as the specification states it, fails: two instances built from
    the same field values are equal, but neither has a hash, so they do
    not have equal hashes. *)
Lemma equal_instances_have_no_hash :
  dataclass_eq (reify 1 hello) (reify 3 hello) = Returns true
  ∧ ¬ (∃ z, dataclass_hash (reify 1 hello) = Returns z
            ∧ dataclass_hash (reify 3 hello) = Returns z).
Proof.
  split; [reflexivity|]. intros (z & E & _). discriminate E.
Qed.

(** C7, amended. With the generated [__eq__] modelled from the
    specification: equality looks at the class and the field values
    only.  Two objects of a store that are instances of one class are
    equal exactly when each field of the one equals the same field of the
    other, whatever their addresses; in particular objects built from
    the same field values are equal, and objects that differ in the value
    of a field are unequal; objects of different classes are unequal.
    Instances have no hash: hashing one is a fault. *)
Theorem dataclass_equality_is_structural
    (h : gmap positive Instance) (i j : positive) (x y : Instance) :
  h !! i = Some x → h !! j = Some y →
  (class_of x = class_of y →
   (dataclass_eq (reify i x) (reify j y) = Returns true
    ↔ ∀ f u v, getattr (reify i x) f = Returns u →
               getattr (reify j y) f = Returns v →
               Value_eq u v = true))
  ∧ (x = y → dataclass_eq (reify i x) (reify j y) = Returns true)
  ∧ (class_of x = class_of y →
     ∀ f u v, getattr (reify i x) f = Returns u →
              getattr (reify j y) f = Returns v →
              Value_eq u v = false →
              dataclass_eq (reify i x) (reify j y) = Returns false)
  ∧ (class_of x ≠ class_of y →
     dataclass_eq (reify i x) (reify j y) = Returns false)
  ∧ dataclass_hash (reify i x) = Raised UnhashableType
  ∧ dataclass_hash (reify j y) = Raised UnhashableType.
Proof.
  intros Hi Hj.
  assert (class_of x = class_of y →
          ∀ f u v, getattr (reify i x) f = Returns u →
                   getattr (reify j y) f = Returns v →
                   Value_eq u v = false →
                   dataclass_eq (reify i x) (reify j y) = Returns false)
    as Hdiffer.
  { intros Hc f u v Hu Hv Huv. rewrite (dataclass_eq_reify i j x y Hc).
    f_equal. apply (differing_value_list_eq _ _ f u v).
    - rewrite <- !field_names_attributes. congruence.
    - apply attribute_names_NoDup.
    - eapply getattr_reify; exact Hu.
    - eapply getattr_reify; exact Hv.
    - exact Huv. }
  split; [|split; [|split; [|split; [|split]]]].
  - intros Hc. split.
    + intros E f u v Hu Hv. destruct (Value_eq u v) eqn:Huv; [reflexivity|].
      rewrite (Hdiffer Hc f u v Hu Hv Huv) in E. discriminate E.
    + intros Hall. rewrite (dataclass_eq_reify i j x y Hc). f_equal.
      apply agreeing_value_list_eq.
      * rewrite <- !field_names_attributes. congruence.
      * intros f u v Hu Hv.
        apply (Hall f); apply elem_getattr_reify; assumption.
  - intros <-. rewrite (dataclass_eq_reify i j x x eq_refl).
    rewrite (list_eq_refl _ _ Value_eq_refl). reflexivity.
  - exact Hdiffer.
  - intros Hc. unfold dataclass_eq. simpl.
    rewrite bool_decide_eq_false_2 by exact Hc. f_equal.
    apply bool_decide_eq_false_2. intros ->. apply Hc. congruence.
  - reflexivity.
  - reflexivity.
Qed.

(** Two addresses holding the text "Hello" are equal; "Hello" and
    "Goodbye" differ in the field [text] and are unequal. *)
Lemma greetings_equality :
  dataclass_eq (reify 1 hello) (reify 3 hello) = Returns true
  ∧ dataclass_eq (reify 1 hello) (reify 2 goodbye) = Returns false.
Proof.
  split.
  - apply (dataclass_equality_is_structural greetings 1 3 hello hello);
      reflexivity.
  - apply (dataclass_equality_is_structural greetings 1 2 hello goodbye)
      with (f := "text") (u := VStr "Hello") (v := VStr "Goodbye");
      reflexivity.
Defined.

(** * Further properties *)

(** ** Message factories *)

(** X1. A [produce] call reads the clock exactly when the timestamp is
    left out: a supplied timestamp, naive or in any zone, is stored as
    given and the world is left as it was; without one the clock is read
    once. *)
Theorem produce_reads_clock_only_by_default
    (c : ProduceCall) (timestamp : datetime) (w : World) :
  (∃ m, produce c (present timestamp) w = (Returns m, w)
        ∧ Message_timestamp m = timestamp)
  ∧ (∃ m, produce c absent w = (Returns m, tick w)).
Proof.
  split; destruct c; eexists; try split; reflexivity.
Qed.

(** X2. The three optional fields reflect the argument exactly: the
    field of the instance is the absence marker if and only if the
    argument was, so an empty sequence, an empty mapping or an empty
    string is kept as a present value. *)
Theorem produce_reflects_absence :
  (∀ content timestamp w, ∃ m w',
      AssistantMessage.produce content timestamp w = (Returns m, w')
      ∧ is_absent (AssistantMessage.content m) = is_absent content)
  ∧ (∀ content cache_control timestamp w, ∃ m w',
      SupervisorMessage.produce content cache_control timestamp w
      = (Returns m, w')
      ∧ is_absent (SupervisorMessage.cache_control m)
        = is_absent cache_control)
  ∧ (∀ invocation_id content error timestamp w, ∃ m w',
      ResultMessage.produce invocation_id content error timestamp w
      = (Returns m, w')
      ∧ ResultMessage.error m = error).
Proof.
  repeat split; intros; destruct timestamp;
    try destruct content; try destruct cache_control;
    do 2 eexists; (split; reflexivity).
Qed.

(** X3. Passing the fields of a message that [produce] returned back to
    [produce] returns the very same message, and does not read the
    clock. *)
Theorem produce_again_returns_same
    (c : ProduceCall) (timestamp : Absential datetime) (w w' : World)
    (m : Message) :
  produce c timestamp w = (Returns m, w') →
  ∀ w2, produce (call_of m) (present (Message_timestamp m)) w2
        = (Returns m, w2).
Proof.
  intros P w2.
  destruct c, timestamp; simpl in P; injection P as <- _;
    try destruct content; try destruct cache_control; reflexivity.
Qed.

Lemma produce_again_failed_call :
  ∃ m, produce failed_call absent noon = (Returns m, tick noon)
       ∧ produce (call_of m) (present (Message_timestamp m)) noon
         = (Returns m, noon).
Proof.
  eexists. split; [reflexivity|].
  apply (produce_again_returns_same failed_call absent noon (tick noon)).
  reflexivity.
Defined.

(** X4. Among the messages the factories return, the role and the class
    determine each other: two of them have the same role exactly when
    they are instances of the same class, and the class is the message
    class of the role. *)
Theorem produce_role_matches_class
    (c1 c2 : ProduceCall) (t1 t2 : Absential datetime) (w1 w2 w1' w2' : World)
    (m1 m2 : Message) :
  produce c1 t1 w1 = (Returns m1, w1') →
  produce c2 t2 w2 = (Returns m2, w2') →
  class_of (AMessage m1) = message_class (Message_role m1)
  ∧ (Message_role m1 = Message_role m2
     ↔ class_of (AMessage m1) = class_of (AMessage m2)).
Proof.
  intros P1 P2.
  destruct c1, t1; simpl in P1; injection P1 as <- _;
    destruct c2, t2; simpl in P2; injection P2 as <- _;
    simpl; (split; [reflexivity | split; congruence]).
Qed.

Lemma produce_role_matches_class_failed_call :
  ∃ m1 m2,
    produce failed_call absent noon = (Returns m1, tick noon)
    ∧ produce (UserMessage_produce (PyList [])) absent (tick noon)
      = (Returns m2, tick (tick noon))
    ∧ class_of (AMessage m1) = message_class (Message_role m1)
    ∧ (Message_role m1 = Message_role m2
       ↔ class_of (AMessage m1) = class_of (AMessage m2)).
Proof.
  do 2 eexists. split; [reflexivity|]. split; [reflexivity|].
  apply (produce_role_matches_class
           failed_call (UserMessage_produce (PyList [])) absent absent
           noon (tick noon) (tick noon) (tick (tick noon)));
    reflexivity.
Defined.

(** ** Constructors *)

(** X5. No field of a message class has a default: constructing any of
    the six succeeds exactly when every field is given. *)
Theorem message_init_requires_every_field :
  (∀ r t c, is_raised (UserMessage.init r t c) = false
            ↔ is_Some r ∧ is_Some t ∧ is_Some c)
  ∧ (∀ r t c, is_raised (AssistantMessage.init r t c) = false
              ↔ is_Some r ∧ is_Some t ∧ is_Some c)
  ∧ (∀ r t c cc, is_raised (SupervisorMessage.init r t c cc) = false
                 ↔ is_Some r ∧ is_Some t ∧ is_Some c ∧ is_Some cc)
  ∧ (∀ r t c d, is_raised (DocumentMessage.init r t c d) = false
                ↔ is_Some r ∧ is_Some t ∧ is_Some c ∧ is_Some d)
  ∧ (∀ r t i n a, is_raised (InvocationMessage.init r t i n a) = false
                  ↔ is_Some r ∧ is_Some t ∧ is_Some i ∧ is_Some n
                    ∧ is_Some a)
  ∧ (∀ r t i c e, is_raised (ResultMessage.init r t i c e) = false
                  ↔ is_Some r ∧ is_Some t ∧ is_Some i ∧ is_Some c
                    ∧ is_Some e).
Proof.
  split; [|split; [|split; [|split; [|split]]]]; intros;
    repeat match goal with
           | x : option _ |- _ => destruct x
           end;
    simpl;
    (split;
     [ intros E; try discriminate E; repeat split; eauto
     | intros H; try reflexivity;
       repeat match goal with
              | H : _ ∧ _ |- _ => destruct H
              | H : is_Some None |- _ => destruct H; discriminate
              end ]).
Qed.

(** X6. Content construction succeeds exactly when the fields without
    default are given; a MIME type or source location that is given is
    stored in place of the default; and constructing from the fields of
    an instance gives that instance back. *)
Theorem content_init_characterised :
  (∀ text mime_type, is_raised (TextContent.init text mime_type) = false
                     ↔ is_Some text)
  ∧ (∀ content_id mime_type source_location,
        is_raised (PictureContent.init content_id mime_type source_location)
        = false
        ↔ is_Some content_id ∧ is_Some mime_type)
  ∧ (∀ c : TextContent.t,
        TextContent.init (Some (TextContent.text c))
                         (Some (TextContent.mime_type c)) = Returns c)
  ∧ (∀ c : PictureContent.t,
        PictureContent.init (Some (PictureContent.content_id c))
                            (Some (PictureContent.mime_type c))
                            (Some (PictureContent.source_location c))
        = Returns c).
Proof.
  split; [|split; [|split]].
  - intros [t|] m; simpl; split; eauto; try discriminate.
    intros [? ?]; discriminate.
  - intros [c|] [m|] s; simpl; split; eauto; try discriminate;
      intros [[? ?] [? ?]]; discriminate.
  - intros []. reflexivity.
  - intros []. reflexivity.
Qed.

(** X7. The six roles have six different values: no member of the
    enumeration is an alias of another. *)
Theorem Role_value_injective (r r' : Role) :
  Role_value r = Role_value r' → r = r'.
Proof. destruct r, r'; simpl; intros E; try reflexivity; discriminate. Qed.

Lemma Role_value_injective_User : User = User.
Proof. apply (Role_value_injective User User). reflexivity. Defined.

(** ** Class statements *)

(** X8. The fields a message class declares are, name for name and in
    the same order, the fields the canister class of its role collects
    from its own annotations and those it inherits from [Canister]; and
    for every class the collected fields begin with the inherited ones,
    so that [TextContent], which writes [text] first, has [mime_type]
    first. *)
Theorem message_fields_match_canister :
  (∀ r, Fields.dataclass_fields (message_class r)
        = Fields.dataclass_fields (canister_class r))
  ∧ (∀ c, Fields.dataclass_fields c = Class.field_names c)
  ∧ Fields.dataclass_fields Class.TextContent = ["mime_type"; "text"].
Proof.
  split; [|split].
  - intros []; reflexivity.
  - intros []; reflexivity.
  - reflexivity.
Qed.

(** ** Test support: splitting qualified names *)

Lemma rsplit_no_dot (s : string) :
  has_dot s = false → rsplit dot s = (s, []).
Proof.
  induction s as [|c s IH]; simpl; [reflexivity|].
  intros H. apply orb_false_iff in H as [Hc Hs].
  rewrite (IH Hs), Hc. reflexivity.
Qed.

Lemma rsplit_join (a b : string) :
  has_dot b = false → rsplit dot (a +:+ "." +:+ b) = (a, [b]).
Proof.
  intros Hb. change (a +:+ "." +:+ b) with (a +:+ String dot b).
  induction a as [|c a IH].
  - change ("" +:+ String dot b) with (String dot b). simpl.
    rewrite (rsplit_no_dot b Hb). reflexivity.
  - change (String c a +:+ String dot b) with (String c (a +:+ String dot b)).
    simpl. rewrite IH. reflexivity.
Qed.

Lemma rsplit_parts (s a : string) (l : list string) :
  rsplit dot s = (a, l) →
  (l = [] ∧ a = s ∧ has_dot s = false)
  ∨ (∃ b, l = [b] ∧ s = a +:+ "." +:+ b ∧ has_dot b = false).
Proof.
  revert a l. induction s as [|c s IH]; simpl; intros a l E.
  - injection E as <- <-. left. auto.
  - destruct (rsplit dot s) as [a' [|b' l']] eqn:R.
    + destruct (IH _ _ eq_refl) as [(_ & -> & Hs)|(b & Hb & _)];
        [|discriminate].
      destruct (Ascii.eqb c dot) eqn:Hc; injection E as <- <-.
      * right. exists s. apply Ascii.eqb_eq in Hc. subst c. auto.
      * left. simpl. rewrite Hs. auto.
    + destruct (IH _ _ eq_refl) as [(Hl & _)|(b & Hb & -> & Hd)];
        [discriminate|].
      injection Hb as -> ->. injection E as <- <-.
      right. exists b. auto.
Qed.

Lemma import_arguments_join (package_name module_name : string) :
  has_dot module_name = false →
  Tests.import_arguments (package_name +:+ "." +:+ module_name)
  = ("." +:+ module_name, Some package_name).
Proof.
  intros H. unfold Tests.import_arguments.
  rewrite (rsplit_join package_name module_name H). reflexivity.
Qed.

(** X9. [cache_import_module] imports a dotted name relative to its
    package and an undotted name absolutely: the arguments it hands to
    [import_module] are the name alone when it has no dot, and otherwise
    the part after the last dot, with a leading dot, and the part before
    it as package; joining package and module with a dot gives the name
    back. *)
Theorem import_arguments_split_at_last_dot (qname : string) :
  match Tests.import_arguments qname with
  | (name, None) => name = qname ∧ has_dot qname = false
  | (name, Some package_name) =>
      ∃ module_name,
        name = "." +:+ module_name
        ∧ qname = package_name +:+ "." +:+ module_name
        ∧ has_dot module_name = false
  end
  ∧ (∀ package_name module_name,
        has_dot module_name = false →
        Tests.import_arguments (package_name +:+ "." +:+ module_name)
        = ("." +:+ module_name, Some package_name)).
Proof.
  split.
  - unfold Tests.import_arguments.
    destruct (rsplit dot qname) as [a l] eqn:R.
    destruct (rsplit_parts _ _ _ R) as [(-> & -> & H)|(b & -> & -> & H)].
    + auto.
    + exists b. auto.
  - apply import_arguments_join.
Qed.

Lemma import_arguments_converser_messages :
  Tests.import_arguments ("converser" +:+ "." +:+ "messages")
  = ("." +:+ "messages", Some "converser").
Proof.
  apply (import_arguments_split_at_last_dot "converser.messages").
  reflexivity.
Defined.

(** ** Test support: the module cache *)

Lemma cache_import_module_cached
    (import_module : string → option string → Raises Tests.ModuleType)
    (qname : string) (cache : gmap string Tests.ModuleType)
    (m : Tests.ModuleType) :
  cache !! qname = Some m →
  Tests.cache_import_module import_module qname cache = (Returns m, cache).
Proof. intros C. unfold Tests.cache_import_module. rewrite C. reflexivity. Qed.

Lemma cache_import_module_returns
    (import_module : string → option string → Raises Tests.ModuleType)
    (qname : string) (cache cache1 : gmap string Tests.ModuleType)
    (m : Tests.ModuleType) :
  Tests.cache_import_module import_module qname cache = (Returns m, cache1) →
  cache1 !! qname = Some m.
Proof.
  unfold Tests.cache_import_module.
  destruct (cache !! qname) as [m0|] eqn:C.
  - intros [= <- <-]. exact C.
  - destruct (import_module _ _); [|discriminate].
    intros [= <- <-]. apply lookup_insert_eq.
Qed.

(** X10. [cache_import_module] imports a name at most once.  When it
    returns, the module is cached under the name, every other entry of
    the cache is as before, nothing cached earlier is replaced, and a
    further call returns the same module from the cache whatever the
    importer would do.  When the import fails, the fault is the
    importer's and the cache is unchanged. *)
Theorem cache_import_module_memoizes
    (import_module import_module' : string → option string
                                    → Raises Tests.ModuleType)
    (qname : string) (cache : gmap string Tests.ModuleType) :
  match Tests.cache_import_module import_module qname cache with
  | (Returns m, cache1) =>
      cache1 !! qname = Some m
      ∧ cache ⊆ cache1
      ∧ (∀ k, k ≠ qname → cache1 !! k = cache !! k)
      ∧ Tests.cache_import_module import_module' qname cache1
        = (Returns m, cache1)
  | (Raised e, cache1) =>
      cache1 = cache
      ∧ cache !! qname = None
      ∧ import_module (Tests.import_arguments qname).1
                      (Tests.import_arguments qname).2 = Raised e
  end.
Proof.
  unfold Tests.cache_import_module.
  destruct (cache !! qname) as [m|] eqn:C.
  - rewrite C. repeat split; auto.
  - destruct (import_module _ _) as [m|e] eqn:I.
    + rewrite lookup_insert_eq. repeat split; auto.
      * apply insert_subseteq. exact C.
      * intros k Hk. apply lookup_insert_ne. congruence.
    + auto.
Qed.

(** X11. When [_discover_module_names] returns, the package is in the
    cache, so looking it up again imports nothing; a package without a
    file has no modules; and every name returned is the stem of a
    regular file the glob yielded that is neither [__init__.py] nor
    [__main__.py]. *)
Theorem discover_module_names_result
    (import_module import_module' : string → option string
                                    → Raises Tests.ModuleType)
    (glob : string → list Tests.Path) (package_name : string)
    (cache cache1 : gmap string Tests.ModuleType) (names : list string) :
  Tests._discover_module_names import_module glob package_name cache
  = (Returns names, cache1) →
  ∃ package,
    cache1 !! package_name = Some package
    ∧ Tests.cache_import_module import_module' package_name cache1
      = (Returns package, cache1)
    ∧ ((Tests.__file__ package = None ∨ Tests.__file__ package = Some "")
       → names = [])
    ∧ ∀ n, n ∈ names →
           ∃ file path,
             Tests.__file__ package = Some file
             ∧ path ∈ glob file
             ∧ Tests.stem path = n
             ∧ Tests.is_file path = true
             ∧ Tests.name path ≠ "__init__.py"
             ∧ Tests.name path ≠ "__main__.py".
Proof.
  unfold Tests._discover_module_names. intros D.
  destruct (Tests.cache_import_module import_module package_name cache)
    as [[package|e] cache'] eqn:M; [|discriminate].
  apply cache_import_module_returns in M as Hc.
  pose proof (cache_import_module_cached import_module' _ _ _ Hc) as Hagain.
  assert (cache1 = cache') as ->.
  { destruct (Tests.__file__ package) as [[|? ?]|]; congruence. }
  exists package. split; [exact Hc|]. split; [exact Hagain|]. split.
  - intros [E|E]; rewrite E in D; congruence.
  - intros n Hn.
    destruct (Tests.__file__ package) as [file|] eqn:F.
    2: { injection D as <-. apply elem_of_nil in Hn. contradiction. }
    destruct file as [|ch file'] eqn:Efile.
    { injection D as <-. apply elem_of_nil in Hn. contradiction. }
    injection D as <-.
    apply list_elem_of_fmap in Hn as (path & -> & Hp).
    apply list_elem_of_In, List.filter_In in Hp as [Hin Hf].
    apply andb_true_iff in Hf as [Hname Hfile].
    apply negb_true_iff, bool_decide_eq_false in Hname.
    exists (String ch file'), path. repeat split; auto.
    + apply list_elem_of_In. exact Hin.
    + intros E. apply Hname. rewrite E. set_solver.
    + intros E. apply Hname. rewrite E. set_solver.
Qed.

Lemma discover_converser_modules :
  ∃ package,
    converser_cache !! "converser" = Some package
    ∧ ∀ n, n ∈ ["canisters"; "messages"] →
           ∃ file path,
             Tests.__file__ package = Some file
             ∧ path ∈ converser_directory file
             ∧ Tests.stem path = n
             ∧ Tests.is_file path = true
             ∧ Tests.name path ≠ "__init__.py"
             ∧ Tests.name path ≠ "__main__.py".
Proof.
  assert (Tests._discover_module_names
            import_converser converser_directory "converser" ∅
          = (Returns ["canisters"; "messages"], converser_cache)) as D
      by (vm_compute; reflexivity).
  destruct (discover_module_names_result
              import_converser import_converser converser_directory
              "converser" ∅ converser_cache
              ["canisters"; "messages"] D)
    as (package & Hc & _ & _ & Hn).
  exists package. split; [exact Hc | exact Hn].
Defined.

(** ** Test support: the tables of module names *)

Lemma dict_get_set {V} (d : list (string * V)) (k k0 : string) (v : V) :
  dict_get (dict_set d k v) k0
  = if String.eqb k k0 then Some v else dict_get d k0.
Proof.
  induction d as [|[k' v'] d IH]; simpl; [reflexivity|].
  destruct (String.eqb k' k) eqn:E; simpl.
  - apply String.eqb_eq in E. subst k'.
    destruct (String.eqb k k0); reflexivity.
  - destruct (String.eqb k' k0) eqn:E0; [|exact IH].
    apply String.eqb_eq in E0. subst k0.
    rewrite String.eqb_sym, E. reflexivity.
Qed.

Lemma dict_get_snoc {V} (d : list (string * V)) (k k0 : string) (v : V) :
  dict_get (d ++ [(k, v)]) k0
  = match dict_get d k0 with
    | Some x => Some x
    | None => if String.eqb k k0 then Some v else None
    end.
Proof.
  induction d as [|[k' v'] d IH]; simpl; [reflexivity|].
  destruct (String.eqb k' k0); [reflexivity | exact IH].
Qed.

Lemma dict_get_foldl {V} (kvs d : list (string * V)) (k : string) :
  dict_get (foldl (fun d kv => dict_set d kv.1 kv.2) d kvs) k
  = match dict_get (reverse kvs) k with
    | Some v => Some v
    | None => dict_get d k
    end.
Proof.
  revert d. induction kvs as [|[k' v'] kvs IH]; intros d; [reflexivity|].
  simpl. rewrite IH, reverse_cons, dict_get_snoc, dict_get_set. simpl.
  destruct (dict_get (reverse kvs) k); [reflexivity|].
  destruct (String.eqb k' k); reflexivity.
Qed.

Lemma dict_get_elem {V} (d : list (string * V)) (k : string) (v : V) :
  dict_get d k = Some v → (k, v) ∈ d.
Proof.
  induction d as [|[k' v'] d IH]; simpl; [discriminate|].
  destruct (String.eqb k' k) eqn:E.
  - apply String.eqb_eq in E. intros [= ->]. subst. left.
  - intros H. right. auto.
Qed.

Lemma dict_get_key {V} (d : list (string * V)) (k : string) :
  is_Some (dict_get d k) ↔ k ∈ fst <$> d.
Proof.
  induction d as [|[k' v'] d IH].
  - simpl. split; [intros [? ?]; discriminate | intros H].
    apply elem_of_nil in H. contradiction.
  - rewrite fmap_cons, elem_of_cons. cbn [dict_get fst].
    destruct (String.eqb k' k) eqn:E.
    + apply String.eqb_eq in E. split; eauto.
    + apply String.eqb_neq in E. rewrite IH. split; [auto|].
      intros [->|H]; [contradiction | exact H].
Qed.

Lemma dict_of_key {V} (kvs : list (string * V)) (k : string) :
  k ∈ fst <$> dict_of kvs ↔ k ∈ fst <$> kvs.
Proof.
  rewrite <- !dict_get_key. unfold dict_of. rewrite dict_get_foldl. simpl.
  destruct (dict_get (reverse kvs) k) as [v|] eqn:E.
  - split; intros _; [|eauto]. apply dict_get_key.
    apply dict_get_elem in E. rewrite elem_of_reverse in E.
    apply (list_elem_of_fmap_2 fst) in E. exact E.
  - split; intros [? ?]; [discriminate|].
    assert (is_Some (dict_get (reverse kvs) k)) as [? ?]; [|congruence].
    apply dict_get_key. rewrite fmap_reverse. apply elem_of_reverse.
    apply dict_get_key. eauto.
Qed.

Lemma dict_of_get {V} (f : string → V) (kvs : list (string * V))
    (k : string) :
  (∀ k' v, (k', v) ∈ kvs → v = f k') →
  k ∈ fst <$> kvs → dict_get (dict_of kvs) k = Some (f k).
Proof.
  intros Hf Hk. unfold dict_of. rewrite dict_get_foldl. simpl.
  assert (is_Some (dict_get (reverse kvs) k)) as [v E].
  { apply dict_get_key. rewrite fmap_reverse. apply elem_of_reverse.
    exact Hk. }
  rewrite E. f_equal. apply Hf.
  apply dict_get_elem in E. rewrite elem_of_reverse in E. exact E.
Qed.

Lemma last_part_join (a b : string) :
  has_dot b = false → Tests.last_part (a +:+ "." +:+ b) = b.
Proof.
  intros H. unfold Tests.last_part. rewrite (rsplit_join a b H). reflexivity.
Qed.

(** X12. The tables of module names agree with each other and with
    [cache_import_module]: the qualified names are the discovered names
    of the package, each prefixed with the package and a dot; each maps
    to the package; and a discovered name without a dot is recovered
    from its qualified name, which [cache_import_module] imports as that
    module relative to that package. *)
Theorem module_tables_agree (discovered : string → list string) :
  ∃ packages names,
    Tests.PACKAGES_NAMES_BY_MODULE_QNAME discovered = Some packages
    ∧ Tests.MODULES_NAMES_BY_MODULE_QNAME discovered = Some names
    ∧ Tests.MODULES_QNAMES discovered = Some (fst <$> packages)
    ∧ (∀ qname,
          qname ∈ fst <$> packages
          ↔ ∃ module_name,
              module_name ∈ discovered Tests.PACKAGE_NAME
              ∧ qname = Tests.PACKAGE_NAME +:+ "." +:+ module_name)
    ∧ (∀ qname,
          qname ∈ fst <$> packages →
          dict_get packages qname = Some Tests.PACKAGE_NAME
          ∧ dict_get names qname = Some (Tests.last_part qname))
    ∧ (∀ module_name,
          module_name ∈ discovered Tests.PACKAGE_NAME →
          has_dot module_name = false →
          dict_get names (Tests.PACKAGE_NAME +:+ "." +:+ module_name)
          = Some module_name
          ∧ Tests.import_arguments
              (Tests.PACKAGE_NAME +:+ "." +:+ module_name)
            = ("." +:+ module_name, Some Tests.PACKAGE_NAME)).
Proof.
  set (kvs := (fun m => (Tests.PACKAGE_NAME +:+ "." +:+ m, Tests.PACKAGE_NAME))
              <$> discovered Tests.PACKAGE_NAME).
  assert (Tests.PACKAGES_NAMES_BY_MODULE_QNAME discovered
          = Some (dict_of kvs)) as EP.
  { unfold Tests.PACKAGES_NAMES_BY_MODULE_QNAME,
      Tests.MODULES_NAMES_BY_PACKAGE_NAME. simpl.
    rewrite app_nil_r. reflexivity. }
  assert (∀ q, q ∈ fst <$> dict_of kvs
               ↔ ∃ m, m ∈ discovered Tests.PACKAGE_NAME
                      ∧ q = Tests.PACKAGE_NAME +:+ "." +:+ m) as Hkeys.
  { intros q. rewrite dict_of_key. unfold kvs. rewrite <- list_fmap_compose.
    rewrite list_elem_of_fmap. simpl. split; intros (m & A & B); eauto. }
  assert (∀ q, q ∈ fst <$> dict_of kvs →
               dict_get
                 (dict_of ((fun n => (n, Tests.last_part n))
                           <$> (fst <$> dict_of kvs))) q
               = Some (Tests.last_part q)) as Hnames.
  { intros q Hq. apply (dict_of_get Tests.last_part).
    - intros k' v Hin. apply list_elem_of_fmap in Hin as (n & [= -> ->] & _).
      reflexivity.
    - rewrite <- list_fmap_compose. simpl. rewrite list_fmap_id. exact Hq. }
  eexists (dict_of kvs), _.
  split; [exact EP|].
  split; [unfold Tests.MODULES_NAMES_BY_MODULE_QNAME; rewrite EP;
          reflexivity|].
  split; [unfold Tests.MODULES_QNAMES; rewrite EP; reflexivity|].
  split; [exact Hkeys|]. split.
  - intros q Hq. split; [|apply Hnames; exact Hq].
    apply (dict_of_get (fun _ => Tests.PACKAGE_NAME)).
    + intros k' v Hin. unfold kvs in Hin.
      apply list_elem_of_fmap in Hin as (m & [= -> ->] & _). reflexivity.
    + apply dict_of_key. exact Hq.
  - intros m Hm Hd. split.
    + rewrite Hnames by (apply Hkeys; eauto).
      f_equal. apply last_part_join. exact Hd.
    + apply import_arguments_join. exact Hd.
Qed.

Lemma module_tables_of_converser :
  ∃ names,
    Tests.MODULES_NAMES_BY_MODULE_QNAME (fun _ => ["canisters"; "messages"])
    = Some names
    ∧ dict_get names ("converser" +:+ "." +:+ "messages") = Some "messages".
Proof.
  destruct (module_tables_agree (fun _ => ["canisters"; "messages"]))
    as (packages & names & _ & E & _ & _ & _ & Htab).
  exists names. split; [exact E|].
  destruct (Htab "messages") as [G _]; [| reflexivity | exact G].
  apply list_elem_of_In. right. left. reflexivity.
Defined.

(** A file whose stem has a dot: its module name in the table is what
    follows the last dot, and it is imported relative to a package that
    is not the one it was discovered in. *)
Example dotted_stem_is_cut :
  Tests.MODULES_NAMES_BY_MODULE_QNAME (fun _ => ["a.b"])
  = Some [("converser.a.b", "b")]
  ∧ Tests.import_arguments "converser.a.b" = (".b", Some "converser.a").
Proof. split; reflexivity. Qed.

(** ** Conversations *)

Lemma produce_all_returns (calls : list ProduceCall) (w : World) :
  never_set_back w = true →
  ∃ ms, produce_all calls w = (Returns ms, later (length calls) w)
        ∧ length ms = length calls
        ∧ ∀ m, m ∈ ms →
               tzinfo (Message_timestamp m) = Some utc
               ∧ clock w ≤ wall (Message_timestamp m).
Proof.
  revert w. induction calls as [|c calls IH]; intros w S.
  - exists []. split; [reflexivity|]. split; [reflexivity|].
    intros m Hm. apply elem_of_nil in Hm. contradiction.
  - destruct (produce_absent_timestamp c w) as (m & P & T).
    destruct (tick_clock_le w S) as [Hc Hs].
    destruct (IH (tick w) Hs) as (ms & Pall & Hlen & Hms).
    exists (m :: ms). split; [|split].
    + simpl. unfold bind. rewrite P, Pall. unfold pure, later. simpl.
      f_equal. symmetry. apply (Nat.iter_succ_r (length calls) tick w).
    + simpl. congruence.
    + intros m' Hm'. apply elem_of_cons in Hm' as [->|Hm'].
      * rewrite T. simpl. split; [reflexivity | lia].
      * destruct (Hms m' Hm') as [Hz Hc']. split; [exact Hz | lia].
Qed.

(** X13. Messages produced one after the other without a timestamp come
    out in chronological order as long as the clock is not set back:
    every call returns, all timestamps are in the zone UTC, and a message
    produced earlier never has a later timestamp than one produced after
    it. *)
Theorem produce_all_is_chronological (calls : list ProduceCall) (w : World) :
  never_set_back w = true →
  ∃ ms w',
    produce_all calls w = (Returns ms, w')
    ∧ length ms = length calls
    ∧ (∀ m, m ∈ ms → tzinfo (Message_timestamp m) = Some utc)
    ∧ ∀ (i j : nat) (mi mj : Message),
        (i ≤ j)%nat → ms !! i = Some mi → ms !! j = Some mj →
        wall (Message_timestamp mi) ≤ wall (Message_timestamp mj).
Proof.
  revert w. induction calls as [|c calls IH]; intros w S.
  - exists [], w. split; [reflexivity|]. split; [reflexivity|]. split.
    + intros m Hm. apply elem_of_nil in Hm. contradiction.
    + intros i j mi mj _ Hi. rewrite lookup_nil in Hi. discriminate.
  - destruct (produce_absent_timestamp c w) as (m & P & T).
    destruct (tick_clock_le w S) as [Hc Hs].
    destruct (produce_all_returns calls (tick w) Hs)
      as (ms & Pall & Hlen & Hms).
    destruct (IH (tick w) Hs) as (ms' & w' & Pall' & _ & _ & Hsorted).
    rewrite Pall in Pall'. injection Pall' as <- <-.
    exists (m :: ms), (later (length calls) (tick w)).
    split; [|split; [|split]].
    + simpl. unfold bind. rewrite P, Pall. reflexivity.
    + simpl. congruence.
    + intros m' Hm'. apply elem_of_cons in Hm' as [->|Hm'].
      * rewrite T. reflexivity.
      * apply Hms. exact Hm'.
    + intros [|i] [|j] mi mj Hij Hi Hj; simpl in Hi, Hj.
      * injection Hi as <-. injection Hj as <-. lia.
      * injection Hi as <-. rewrite T. simpl.
        apply list_elem_of_lookup_2 in Hj.
        destruct (Hms mj Hj) as [_ Hc']. lia.
      * lia.
      * apply (Hsorted i j); [lia | exact Hi | exact Hj].
Qed.

Lemma produce_all_two_calls :
  never_set_back noon = true
  ∧ ∃ ms w',
      produce_all [failed_call; UserMessage_produce (PyList [])] noon
      = (Returns ms, w')
      ∧ ∀ mi mj, ms !! 0%nat = Some mi → ms !! 1%nat = Some mj →
                 wall (Message_timestamp mi) ≤ wall (Message_timestamp mj).
Proof.
  split; [reflexivity|].
  destruct (produce_all_is_chronological
              [failed_call; UserMessage_produce (PyList [])] noon eq_refl)
    as (ms & w' & P & _ & _ & H).
  exists ms, w'. split; [exact P|].
  intros mi mj Hi Hj. apply (H 0%nat 1%nat mi mj); [lia | exact Hi | exact Hj].
Defined.
